(** * mu-search: the OpenAPI generator [scripts/generate-openapi/generate.py]

    A shallow embedding of the script that turns the mu-search index
    configuration into an OpenAPI 3.0 description, and the properties of the
    documents it produces.

    The script works on the dynamically typed values that [json.load]
    returns, so the embedding does too: values are [json] trees, Python's
    subscripting, iteration and dictionary assignment are written out with
    the exceptions they raise, and the script is a function into [result]. *)

From stdpp Require Import base strings list gmap pretty.
Local Open Scope string_scope.
Local Open Scope list_scope.
Local Set Warnings "-register-all,-clear-no-such-hyp".

(** ** Values *)

(** What [json.load] returns: [None], [bool], [int], [float], [str], [list]
    and [dict].  A [dict] keeps its insertion order, so it is an association
    list; a [float] is carried by its [repr], the script never computes with
    one.  A [str] is its sequence of characters. *)
Inductive json : Type :=
  | JNull
  | JBool (b : bool)
  | JInt (n : Z)
  | JFloat (repr : string)
  | JStr (s : string)
  | JList (xs : list json)
  | JDict (kvs : list (string * json)).

(** Python dictionaries with [str] keys. *)
Abbreviation dict A := (list (string * A)).

Section dict.
Context {A : Type}.

(** [d.get(k)] *)
Fixpoint dict_get (d : dict A) (k : string) : option A :=
  match d with
  | [] => None
  | (k', v) :: d' => if decide (k' = k) then Some v else dict_get d' k
  end.

(** [d[k] = v]: an existing key keeps its position, a new one goes last. *)
Fixpoint dict_set (d : dict A) (k : string) (v : A) : dict A :=
  match d with
  | [] => [(k, v)]
  | (k', v') :: d' =>
      if decide (k' = k) then (k', v) :: d' else (k', v') :: dict_set d' k v
  end.

(** [list(d.keys())] and [list(d.values())] *)
Definition dict_keys (d : dict A) : list string := d.*1.
Definition dict_values (d : dict A) : list A := d.*2.
End dict.

(** ** Exceptions and results *)

Inductive type_error : Type :=
  | NotSubscriptable   (* 'int' object is not subscriptable *)
  | BadIndex           (* list/string indices must be integers *)
  | NotIterable        (* 'int' object is not iterable *)
  | Unhashable.        (* unhashable type: 'list' *)

Inductive exn : Type :=
  | KeyError (key : json)
  | TypeError (why : type_error)
  | AttributeError (attr : string).

Inductive result (A : Type) : Type :=
  | Ok (a : A)
  | Err (e : exn).
Arguments Ok {A} a.
Arguments Err {A} e.

#[global] Instance result_ret : MRet result := λ A a, Ok a.
#[global] Instance result_bind : MBind result := λ A B f r,
  match r with
  | Ok a => f a
  | Err e => Err e
  end.
#[global] Instance result_fmap : FMap result := λ A B f r,
  match r with
  | Ok a => Ok (f a)
  | Err e => Err e
  end.

Definition is_Ok {A} (r : result A) : Prop := ∃ a, r = Ok a.
Definition is_Err {A} (r : result A) : Prop := ∃ e, r = Err e.

(** ** Python operations on loaded values *)

(** [v[k]] for a [str] key [k]. *)
Definition getitem (v : json) (k : string) : result json :=
  match v with
  | JDict d =>
      match dict_get d k with
      | Some x => Ok x
      | None => Err (KeyError (JStr k))
      end
  | JList _ | JStr _ => Err (TypeError BadIndex)
  | JNull | JBool _ | JInt _ | JFloat _ => Err (TypeError NotSubscriptable)
  end.

(** [v.items()] *)
Definition items (v : json) : result (dict json) :=
  match v with
  | JDict d => Ok d
  | _ => Err (AttributeError "items")
  end.

(** The characters of a string, each a string of length one. *)
Fixpoint chars (s : string) : list string :=
  match s with
  | EmptyString => []
  | String c s' => String c EmptyString :: chars s'
  end.

(** The elements [for x in v] runs over: the elements of a list, the keys of
    a dict, the characters of a string. *)
Definition iter (v : json) : result (list json) :=
  match v with
  | JList xs => Ok xs
  | JDict d => Ok (JStr <$> dict_keys d)
  | JStr s => Ok (JStr <$> chars s)
  | JNull | JBool _ | JInt _ | JFloat _ => Err (TypeError NotIterable)
  end.

Definition join (sep : string) (ss : list string) : string :=
  match ss with
  | [] => ""
  | s :: ss' => foldl (λ acc x, acc +:+ sep +:+ x) s ss'
  end.

Section python_str.
(** [repr] of a [str]: the quoting and escaping rules of CPython are not
    modelled, every statement below holds whatever they are. *)
Variable repr_str : string → string.

(** [repr(v)] *)
Fixpoint py_repr (v : json) : string :=
  match v with
  | JNull => "None"
  | JBool true => "True"
  | JBool false => "False"
  | JInt n => pretty n
  | JFloat r => r
  | JStr s => repr_str s
  | JList xs => "[" +:+ join ", " (map py_repr xs) +:+ "]"
  | JDict kvs =>
      "{" +:+ join ", "
        (map (λ kv, match kv with
                    | (k, x) => repr_str k +:+ ": " +:+ py_repr x
                    end) kvs) +:+ "}"
  end.

(** [f"{v}"], that is [str(v)]. *)
Definition format_value (v : json) : string :=
  match v with
  | JStr s => s
  | _ => py_repr v
  end.
End python_str.

(** ** The script *)

(** Lines 5-10. *)
Definition es_type_to_openapi_type : dict string :=
  [ ("text", "string");
    ("keyword", "string");
    ("date", "string");
    ("integer", "integer") ].

(** [es_type_to_openapi_type[t]]: a key that is not in the table raises
    [KeyError], a list or a dict cannot be hashed. *)
Definition es_type_lookup (t : json) : result string :=
  match t with
  | JStr s =>
      match dict_get es_type_to_openapi_type s with
      | Some ty => Ok ty
      | None => Err (KeyError t)
      end
  | JList _ | JDict _ => Err (TypeError Unhashable)
  | JNull | JBool _ | JInt _ | JFloat _ => Err (KeyError t)
  end.

(** Lines 12-42. *)
Definition page_parameter : json :=
  JDict
    [ ("in", JStr "query");
      ("name", JStr "page");
      ("description", JStr "For more info, read the mu-search documentation on [Pagination](https://github.com/mu-semtech/mu-search#pagination).");
      ("explode", JBool true);
      ("style", JStr "deepObject");
      ("schema", JDict
         [ ("type", JStr "object");
           ("properties", JDict
              [ ("size", JDict [("type", JStr "integer")]);
                ("number", JDict [("type", JStr "integer")]) ]) ]) ].

Definition collapse_uuids_parameter : json :=
  JDict
    [ ("in", JStr "query");
      ("name", JStr "collapse_uuids");
      ("description", JStr "For more info, read the mu-search documentation on [Removing duplicate results](https://github.com/mu-semtech/mu-search#removing-duplicate-results).");
      ("explode", JBool true);
      ("style", JStr "form");
      ("schema", JDict
         [ ("type", JStr "string");
           ("enum", JList [JStr "t"]) ]) ].

Definition STATIC_PARAMETERS : list json :=
  [ page_parameter; collapse_uuids_parameter ].

(** Lines 44-48.  The inner dictionaries [{"type": ...}] are kept as
    dictionaries, since the caller assigns into them (line 134). *)
Fixpoint openapi_props_loop (its : dict json) (openapi_props : dict (dict json))
    : result (dict (dict json)) :=
  match its with
  | [] => Ok openapi_props
  | (key, props) :: rest =>
      t ← getitem props "type";
      ty ← es_type_lookup t;
      openapi_props_loop rest (dict_set openapi_props key [("type", JStr ty)])
  end.

Definition search_conf_props_to_openapi_props (s_conf_props : json)
    : result (dict (dict json)) :=
  its ← items s_conf_props;
  openapi_props_loop its [].

(** A dictionary of dictionaries as a value. *)
Definition props_json (ps : dict (dict json)) : json :=
  JDict (prod_map id JDict <$> ps).

(** Lines 50-63 (the script defines this function and never calls it). *)
Fixpoint openapi_filter_qp_loop (its : dict json) (properties : dict json)
    : result (dict json) :=
  match its with
  | [] => Ok properties
  | (key, props) :: rest =>
      t ← getitem props "type";
      ty ← es_type_lookup t;
      openapi_filter_qp_loop rest
        (dict_set properties key (JDict [("type", JStr ty)]))
  end.

Definition search_conf_props_to_openapi_filter_qp (s_conf_props : json)
    : result json :=
  its ← items s_conf_props;
  properties ← openapi_filter_qp_loop its [];
  Ok (JDict
        [ ("in", JStr "query");
          ("name", JStr "filter");
          ("explode", JBool true);
          ("style", JStr "deepObject");
          ("schema", JDict
             [ ("type", JStr "object");
               ("properties", JDict properties) ]) ]).

(** Lines 133-134: [for k, v in sort_props.items(): v["enum"] = ["asc", "desc"]]. *)
Definition sort_enum_loop (sort_props : dict (dict json)) : dict (dict json) :=
  (λ kv, (kv.1, dict_set kv.2 "enum" (JList [JStr "asc"; JStr "desc"])))
    <$> sort_props.

(** [search_conf_props_to_openapi_props(type["mappings"]["properties"])] *)
Definition type_props (type : json) : result (dict (dict json)) :=
  mappings ← getitem type "mappings";
  properties ← getitem mappings "properties";
  search_conf_props_to_openapi_props properties.

(** [paths_obj[path]["parameters"]]: the path item and its parameter list. *)
Definition parameters_ref (paths_obj : dict json) (path : string)
    : result (dict json * list json) :=
  item ← getitem (JDict paths_obj) path;
  parameters ← getitem item "parameters";
  match item, parameters with
  | JDict o, JList ps => Ok (o, ps)
  | _, _ => Err (AttributeError "append")
  end.

(** The list object reached through [paths_obj[path]["parameters"]] has
    grown to [ps]: what [append] and [extend] do to [paths_obj]. *)
Definition parameters_store (paths_obj : dict json) (path : string)
    (item : dict json) (ps : list json) : dict json :=
  dict_set paths_obj path (JDict (dict_set item "parameters" (JList ps))).

Section script.
Variable repr_str : string → string.

(** Line 81. *)
Definition search_path (name : json) : string :=
  "/" +:+ format_value repr_str name +:+ "/search".

(** Lines 81-146, one turn of the loop over the types. *)
Definition types_loop_body (type : json) (paths_obj : dict json)
    : result (dict json) :=
  name ← getitem type "type";
  let path := search_path name in
  name' ← getitem type "type";
  attributes ← type_props type;
  let paths_obj :=
    dict_set paths_obj path
      (JDict
         [ ("get", JDict
              [ ("description",
                 JStr ("Search the " +:+ format_value repr_str name' +:+ " index"));
                ("responses", JDict
                   [ ("200", JDict
                        [ ("description", JStr "Search results");
                          ("content", JDict
                             [ ("application/json", JDict
                                  [ ("schema", JDict
                                       [ ("type", JStr "object");
                                         ("properties", JDict
                                            [ ("data", JDict
                                                 [ ("type", JStr "object");
                                                   ("properties", JDict
                                                      [ ("id", JDict [("type", JStr "string")]);
                                                        ("type", JDict [("type", JStr "string")]);
                                                        ("attributes", JDict
                                                           [ ("type", JStr "object");
                                                             ("properties", props_json attributes) ]) ]) ]) ]) ]) ]) ]) ]) ]) ]);
           ("parameters", JList []) ]) in
  '(item, ps) ← parameters_ref paths_obj path;
  filter_props ← type_props type;
  let paths_obj :=
    parameters_store paths_obj path item
      (ps ++
       [ JDict
           [ ("in", JStr "query");
             ("name", JStr "filter");
             ("description", JStr "Note that more filtering options exist than what it expressable in Openapi.
    Read the mu-search documentation on [Supported search methods](https://github.com/mu-semtech/mu-search#supported-search-methods) for more info");
             ("explode", JBool true);
             ("style", JStr "deepObject");
             ("schema", JDict
                [ ("type", JStr "object");
                  ("properties", props_json filter_props) ]) ] ]) in
  sort_props ← type_props type;
  let sort_props := sort_enum_loop sort_props in
  '(item, ps) ← parameters_ref paths_obj path;
  let paths_obj :=
    parameters_store paths_obj path item
      (ps ++
       [ JDict
           [ ("in", JStr "query");
             ("name", JStr "sort");
             ("description", JStr "For more info, read the mu-search documentation on [sorting](https://github.com/mu-semtech/mu-search#sorting).");
             ("explode", JBool true);
             ("style", JStr "deepObject");
             ("schema", JDict
                [ ("type", JStr "object");
                  ("properties", props_json sort_props) ]) ] ]) in
  '(item, ps) ← parameters_ref paths_obj path;
  Ok (parameters_store paths_obj path item (ps ++ STATIC_PARAMETERS)).

(** Lines 79-146. *)
Fixpoint types_loop (types : list json) (paths_obj : dict json)
    : result (dict json) :=
  match types with
  | [] => Ok paths_obj
  | type :: rest =>
      paths_obj ← types_loop_body type paths_obj;
      types_loop rest paths_obj
  end.

(** Lines 70-148: from the loaded configuration to the document that is
    written out. *)
Definition compile (mu_search_config : json) : result json :=
  let openapi :=
    [ ("openapi", JStr "3.0.0");
      ("info", JDict
         [ ("title", JStr "Mu-search api description");
           ("version", JStr "Our version") ]);
      ("paths", JDict []) ] in
  types ← getitem mu_search_config "types";
  types ← iter types;
  paths_obj ← types_loop types [];
  Ok (JDict (dict_set openapi "paths" (JDict paths_obj))).

(** Lines 65-68 and 151-156: the two files the script touches.  The
    document file is written last, once the document is complete. *)
Record files : Type := Files {
  config_json : json;
  search_openapi_json : option json
}.

Definition main (fs : files) : files * option exn :=
  match compile (config_json fs) with
  | Ok openapi =>
      ({| config_json := config_json fs;
          search_openapi_json := Some openapi |}, None)
  | Err e => (fs, Some e)
  end.
End script.

(** ** The objects behind the property dictionaries

    Every call of [search_conf_props_to_openapi_props] builds new dictionary
    objects, and line 134 assigns into the ones that [sort_props] holds.
    Here those objects live in a store and a property dictionary holds
    their addresses, so that what the assignment reaches is explicit. *)
Module Store.
Abbreviation addr := nat.
Abbreviation store := (list (dict json)).

(** A dictionary display [{...}] makes a new object. *)
Definition alloc (σ : store) (o : dict json) : addr * store :=
  (length σ, σ ++ [o]).

(** [v[k] = x] for the object [v] at address [a]. *)
Definition setitem (σ : store) (a : addr) (k : string) (x : json) : store :=
  alter (λ o, dict_set o k x) a σ.

(** Lines 44-48. *)
Fixpoint openapi_props_loop (its : dict json) (openapi_props : dict addr)
    (σ : store) : result (dict addr * store) :=
  match its with
  | [] => Ok (openapi_props, σ)
  | (key, props) :: rest =>
      t ← getitem props "type";
      ty ← es_type_lookup t;
      let '(a, σ) := alloc σ [("type", JStr ty)] in
      openapi_props_loop rest (dict_set openapi_props key a) σ
  end.

Definition search_conf_props_to_openapi_props (s_conf_props : json)
    (σ : store) : result (dict addr * store) :=
  its ← items s_conf_props;
  openapi_props_loop its [] σ.

Definition type_props (type : json) (σ : store)
    : result (dict addr * store) :=
  mappings ← getitem type "mappings";
  properties ← getitem mappings "properties";
  search_conf_props_to_openapi_props properties σ.

(** Lines 133-134. *)
Fixpoint sort_enum_loop (its : dict addr) (σ : store) : store :=
  match its with
  | [] => σ
  | (k, v) :: rest =>
      sort_enum_loop rest (setitem σ v "enum" (JList [JStr "asc"; JStr "desc"]))
  end.

(** The property dictionaries of one turn of the loop over the types:
    the calls of lines 106, 128 and 132, then the assignments of lines
    133-134.  [built] is the store when line 132 has returned, [final]
    the store at the end of the turn. *)
Record turn : Type := Turn {
  attributes : dict addr;
  filter_props : dict addr;
  sort_props : dict addr;
  built : store;
  final : store
}.

Definition loop_turn (type : json) (σ : store) : result turn :=
  '(attributes, σ) ← type_props type σ;
  '(filter_props, σ) ← type_props type σ;
  '(sort_props, σ) ← type_props type σ;
  Ok {| attributes := attributes;
        filter_props := filter_props;
        sort_props := sort_props;
        built := σ;
        final := sort_enum_loop sort_props σ |}.

(** One turn of the loop over the types, as far as the property
    dictionaries and the exceptions go: the two lookups of the name on
    lines 81 and 85, then [loop_turn]. *)
Definition types_loop_turn (type : json) (σ : store) : result turn :=
  name ← getitem type "type";
  name' ← getitem type "type";
  loop_turn type σ.

(** The value of a property dictionary in a store, as [json.dump] walks
    it. *)
Definition read (σ : store) (d : dict addr) : option (dict (dict json)) :=
  mapM (λ kv, o ← σ !! kv.2; Some (kv.1, o)) d.

(** The object at an address that is in use. *)
Definition deref (σ : store) (a : addr) : dict json := default [] (σ !! a).
End Store.

(** ** Reading documents *)

Inductive sel : Type :=
  | Key (k : string)
  | Idx (i : nat).

(** [v[s1][s2]...] where the value has that shape. *)
Fixpoint json_at (v : json) (p : list sel) : option json :=
  match p with
  | [] => Some v
  | Key k :: p' =>
      match v with
      | JDict d => x ← dict_get d k; json_at x p'
      | _ => None
      end
  | Idx i :: p' =>
      match v with
      | JList xs => x ← xs !! i; json_at x p'
      | _ => None
      end
  end.

(** The property names of an object schema. *)
Definition property_names (v : json) : option (list string) :=
  match v with
  | JDict d => Some (dict_keys d)
  | _ => None
  end.

(** Where a path item keeps the three schemas derived from the fields. *)
Definition attributes_properties : list sel :=
  [ Key "get"; Key "responses"; Key "200"; Key "content";
    Key "application/json"; Key "schema"; Key "properties"; Key "data";
    Key "properties"; Key "attributes"; Key "properties" ].
Definition filter_properties : list sel :=
  [ Key "parameters"; Idx 0; Key "schema"; Key "properties" ].
Definition sort_properties : list sel :=
  [ Key "parameters"; Idx 1; Key "schema"; Key "properties" ].

(** [type["mappings"]["properties"]] *)
Definition field_mapping (type : json) : result json :=
  mappings ← getitem type "mappings";
  getitem mappings "properties".

(** ** What the script builds, in closed form

    The values below are what the statements of the loop leave behind; the
    lemmas [types_loop_body_eq] and [compile_eq] prove it. *)

Definition response_schema (attributes : json) : json :=
  JDict
    [ ("type", JStr "object");
      ("properties", JDict
         [ ("data", JDict
              [ ("type", JStr "object");
                ("properties", JDict
                   [ ("id", JDict [("type", JStr "string")]);
                     ("type", JDict [("type", JStr "string")]);
                     ("attributes", JDict
                        [ ("type", JStr "object");
                          ("properties", attributes) ]) ]) ]) ]) ].

Definition get_operation (name : string) (attributes : json) : json :=
  JDict
    [ ("description", JStr ("Search the " +:+ name +:+ " index"));
      ("responses", JDict
         [ ("200", JDict
              [ ("description", JStr "Search results");
                ("content", JDict
                   [ ("application/json", JDict
                        [ ("schema", response_schema attributes) ]) ]) ]) ]) ].

Definition filter_parameter (properties : json) : json :=
  JDict
    [ ("in", JStr "query");
      ("name", JStr "filter");
      ("description", JStr "Note that more filtering options exist than what it expressable in Openapi.
    Read the mu-search documentation on [Supported search methods](https://github.com/mu-semtech/mu-search#supported-search-methods) for more info");
      ("explode", JBool true);
      ("style", JStr "deepObject");
      ("schema", JDict
         [ ("type", JStr "object");
           ("properties", properties) ]) ].

Definition sort_parameter (properties : json) : json :=
  JDict
    [ ("in", JStr "query");
      ("name", JStr "sort");
      ("description", JStr "For more info, read the mu-search documentation on [sorting](https://github.com/mu-semtech/mu-search#sorting).");
      ("explode", JBool true);
      ("style", JStr "deepObject");
      ("schema", JDict
         [ ("type", JStr "object");
           ("properties", properties) ]) ].

(** The path item of a type called [name] whose fields give [props]. *)
Definition path_item (name : string) (props : dict (dict json)) : json :=
  JDict
    [ ("get", get_operation name (props_json props));
      ("parameters", JList
         [ filter_parameter (props_json props);
           sort_parameter (props_json (sort_enum_loop props));
           page_parameter;
           collapse_uuids_parameter ]) ].

Definition document (paths : dict json) : json :=
  JDict
    [ ("openapi", JStr "3.0.0");
      ("info", JDict
         [ ("title", JStr "Mu-search api description");
           ("version", JStr "Our version") ]);
      ("paths", JDict paths) ].

(** [d.update(kvs)]: the assignments [d[k] = v] for the pairs of [kvs], in
    order. *)
Definition dict_update {A} (d : dict A) (kvs : list (string * A)) : dict A :=
  foldl (λ d kv, dict_set d kv.1 kv.2) d kvs.

(** The property dictionary that a field mapping gives when every field has
    a type of the table: one [{"type": ...}] per field. *)
Definition field_schema (ty : string) : dict json := [("type", JStr ty)].

(** [props["type"]] looked up in the table. *)
Definition field_type (props : json) : result string :=
  t ← getitem props "type";
  es_type_lookup t.

Definition field_entry (kv : string * json) : result (string * dict json) :=
  ty ← field_type kv.2;
  Ok (kv.1, field_schema ty).

Definition field_schemas (its : dict json) : result (dict (dict json)) :=
  mapM field_entry its.

Section closed_form.
Variable repr_str : string → string.

(** The path and the path item that one type contributes. *)
Definition type_entry (type : json) : result (string * json) :=
  name ← getitem type "type";
  props ← type_props type;
  Ok (search_path repr_str name,
      path_item (format_value repr_str name) props).

Definition type_entries (types : list json) : result (dict json) :=
  mapM type_entry types.
End closed_form.

(** ** The shape of a configuration *)

(** The declared types that the table has. *)
Definition supported_types : list json :=
  JStr <$> dict_keys es_type_to_openapi_type.

(** A declared type that can be a key of the table: anything but a list or
    a dict, which cannot be hashed. *)
Definition hashable (t : json) : Prop :=
  match t with
  | JList _ | JDict _ => False
  | _ => True
  end.

(** [type] declares the field [key] with the type [t]. *)
Definition declares (type : json) (key : string) (t : json) : Prop :=
  ∃ fields props,
    field_mapping type = Ok (JDict fields) ∧
    (key, props) ∈ fields ∧
    getitem props "type" = Ok t.

(** The resource types the loop of line 80 runs over. *)
Definition types_of (mu_search_config : json) : result (list json) :=
  types ← getitem mu_search_config "types";
  iter types.

(** The error of the spec's [UnsupportedFieldType], for the types of a
    configuration: the script has no such class, what it raises is the
    [KeyError] of the lookup in the table, carrying the type that a field
    of one of the types declares and that the table does not have. *)
Definition UnsupportedFieldType (types : list json) (e : exn) : Prop :=
  ∃ type key t,
    type ∈ types ∧
    declares type key t ∧
    (t ∉ supported_types) ∧
    es_type_lookup t = Err e ∧
    e = KeyError t.

(** A type of the required structure, whatever the declared field types
    are: a [type] entry, a field mapping that is an object, and every field
    an object with a [type] entry that can be hashed. *)
Definition structured_field (kv : string * json) : Prop :=
  ∃ t, getitem kv.2 "type" = Ok t ∧ hashable t.

Definition structured_type (type : json) : Prop :=
  is_Ok (getitem type "type") ∧
  ∃ fields,
    field_mapping type = Ok (JDict fields) ∧ Forall structured_field fields.

(** The path item of [path] in a document. *)
Definition path_item_at (doc : json) (path : string) : option json :=
  json_at doc [Key "paths"; Key path].

Section type_path.
Variable repr_str : string → string.

(** The path of a type, line 81. *)
Definition type_path (type : json) : result string :=
  name ← getitem type "type";
  Ok (search_path repr_str name).
End type_path.

(** The property names of [schema] are the field names of [fields]: the
    same set, and the same sequence when no name is repeated (a [dict]
    never repeats a key). *)
Definition same_names (schema : json) (fields : dict json) : Prop :=
  ∃ names,
    property_names schema = Some names ∧
    list_to_set names =@{gset string} list_to_set (dict_keys fields) ∧
    (NoDup (dict_keys fields) → names = dict_keys fields).

(** The three schemas of a path item that are derived from the fields have
    the names of [fields]. *)
Definition covers (item : json) (fields : dict json) : Prop :=
  ∀ place,
    place ∈ [attributes_properties; filter_properties; sort_properties] →
    ∃ schema, json_at item place = Some schema ∧ same_names schema fields.

(** The fully assembled path item of a type: the operation described with
    the name of the type, the response schema, and the four parameters,
    over the property dictionary that has, for every field of the type in
    the order of the mapping, the schema of the field's mapped type. *)
Definition mapped_field (kv : string * json) (p : string * dict json) : Prop :=
  p.1 = kv.1 ∧ ∃ ty, field_type kv.2 = Ok ty ∧ p.2 = [("type", JStr ty)].

Section assembled.
Variable repr_str : string → string.

Definition assembled (type : json) (item : json) : Prop :=
  ∃ name fields r,
    getitem type "type" = Ok name ∧
    field_mapping type = Ok (JDict fields) ∧
    Forall2 mapped_field fields r ∧
    item = path_item (format_value repr_str name) (dict_update [] r).
End assembled.

(** Every property of the sort schema of [item] is a type with the enum of
    the two directions. *)
Definition sort_enum (item : json) : Prop :=
  ∃ properties,
    json_at item sort_properties = Some (JDict properties) ∧
    ∀ key schema,
      (key, schema) ∈ properties →
      json_at schema [Key "enum"] = Some (JList [JStr "asc"; JStr "desc"]) ∧
      ∃ ty, schema =
            JDict [("type", JStr ty); ("enum", JList [JStr "asc"; JStr "desc"])].

(** Every field of [fields] has a property in the sort schema of [item]:
    the mapped type of a field of that name, with the two directions. *)
Definition sortable (item : json) (fields : dict json) : Prop :=
  ∀ key props,
    (key, props) ∈ fields →
    ∃ props' ty,
      (key, props') ∈ fields ∧
      field_type props' = Ok ty ∧
      (NoDup (dict_keys fields) → props' = props) ∧
      json_at item (sort_properties ++ [Key key]) =
        Some (JDict [ ("type", JStr ty);
                      ("enum", JList [JStr "asc"; JStr "desc"]) ]).

(** ** Sample configurations *)

(** [repr] of a string that needs no escaping: the string in single
    quotes. *)
Definition repr_plain (s : string) : string := "'" +:+ s +:+ "'".

Definition sample_type (name : string) (fields : dict json) : json :=
  JDict
    [ ("type", JStr name);
      ("mappings", JDict [("properties", JDict fields)]) ].

Definition person_fields : dict json :=
  [ ("name", JDict [("type", JStr "text")]);
    ("age", JDict [("type", JStr "integer")]) ].

Definition person_type : json := sample_type "person" person_fields.

Definition person_config : json :=
  JDict [("types", JList [person_type])].

Definition person_item : json :=
  path_item "person"
    [ ("name", field_schema "string"); ("age", field_schema "integer") ].

Definition person_doc : json := document [("/person/search", person_item)].

(** A second type, with the two other types of the table. *)
Definition event_fields : dict json :=
  [ ("title", JDict [("type", JStr "keyword")]);
    ("start", JDict [("type", JStr "date")]) ].

Definition event_type : json := sample_type "event" event_fields.

Definition event_item : json :=
  path_item "event"
    [ ("title", field_schema "string"); ("start", field_schema "string") ].

Definition two_types_config : json :=
  JDict [("types", JList [person_type; event_type])].

Definition two_types_doc : json :=
  document [("/person/search", person_item); ("/event/search", event_item)].

(** The scenario of a field declared with the type [float]. *)
Definition float_type : json :=
  sample_type "product" [("price", JDict [("type", JStr "float")])].

Definition float_config : json :=
  JDict [("types", JList [person_type; float_type])].

(** A declared type that is a list, and a configuration whose first type
    is not an object. *)
Definition unhashable_type : json :=
  sample_type "product" [("price", JDict [("type", JList [JStr "float"])])].

Definition unhashable_config : json :=
  JDict [("types", JList [unhashable_type])].

Definition misplaced_config : json :=
  JDict [("types", JList [JInt 5; float_type])].

(** Two types with the same name. *)
Definition person_type' : json :=
  sample_type "person" [("email", JDict [("type", JStr "keyword")])].

Definition person_item' : json :=
  path_item "person" [("email", field_schema "string")].

Definition duplicate_config : json :=
  JDict [("types", JList [person_type; person_type'])].

(** Configurations without the required structure. *)
Definition empty_object_config : json := JDict [("types", JDict [])].

Definition no_types_config : json := JDict [("batch_size", JInt 128)].

Definition number_types_config : json := JDict [("types", JInt 5)].

Definition object_types_config : json :=
  JDict [("types", JDict [("person", person_type)])].

Definition bare_type : json := JDict [("type", JStr "document")].

Definition bare_type_config : json :=
  JDict [("types", JList [person_type; bare_type])].

Definition no_files (config : json) : files :=
  {| config_json := config; search_openapi_json := None |}.

(** ** Configurations that the script accepts *)

(** A field whose declared type the table has. *)
Definition accepted_field (kv : string * json) : Prop :=
  ∃ t, getitem kv.2 "type" = Ok t ∧ t ∈ supported_types.

(** A type on which one turn of the loop raises nothing: it has a [type]
    entry, of any value, and [type["mappings"]["properties"]] is an object
    whose fields are all accepted. *)
Definition accepted_type (type : json) : Prop :=
  is_Ok (getitem type "type") ∧
  ∃ fields,
    field_mapping type = Ok (JDict fields) ∧ Forall accepted_field fields.

(** [t] is the declared type of the first field, in the order of the two
    loops, that the script cannot map: the types before its type are
    accepted, its type has a [type] entry and a field mapping that is an
    object, the fields before it are accepted, and [t] is not in the
    table. *)
Definition first_unmapped (types : list json) (t : json) : Prop :=
  ∃ pre type post fpre key props fpost,
    types = pre ++ type :: post ∧
    Forall accepted_type pre ∧
    is_Ok (getitem type "type") ∧
    field_mapping type = Ok (JDict (fpre ++ (key, props) :: fpost)) ∧
    Forall accepted_field fpre ∧
    getitem props "type" = Ok t ∧
    t ∉ supported_types.

(** What [search_conf_props_to_openapi_filter_qp] returns for a property
    dictionary: the filter parameter without a description. *)
Definition filter_qp (properties : json) : json :=
  JDict
    [ ("in", JStr "query");
      ("name", JStr "filter");
      ("explode", JBool true);
      ("style", JStr "deepObject");
      ("schema", JDict
         [ ("type", JStr "object");
           ("properties", properties) ]) ].

(** A configuration as real ones are, with entries that the script does not
    read. *)
Definition annotated_person_type : json :=
  JDict
    [ ("type", JStr "person");
      ("on_path", JStr "people");
      ("rdf_type", JStr "http://xmlns.com/foaf/0.1/Person");
      ("mappings", JDict
         [ ("properties", JDict
              [ ("name", JDict [("type", JStr "text");
                                ("analyzer", JStr "dutchanalyzer")]);
                ("age", JDict [("type", JStr "integer")]) ]) ]) ].

(** What the script reads of a configuration.  Of a field it reads the
    name and [props["type"]]; of a type, [type["type"]] and
    [type["mappings"]["properties"]], which raises, or is not an object, or
    is an object with fields; of the configuration, the elements that
    [mu_search_config["types"]] runs over, unless that raises.  Two
    configurations read the same when these agree, whatever other entries
    they have. *)
Definition same_fields (fields fields' : dict json) : Prop :=
  Forall2 (λ kv kv', kv.1 = kv'.1 ∧
                     getitem kv.2 "type" = getitem kv'.2 "type")
    fields fields'.

Definition same_mapping (r r' : result json) : Prop :=
  match r, r' with
  | Err e, Err e' => e = e'
  | Ok (JDict fields), Ok (JDict fields') => same_fields fields fields'
  | Ok (JDict _), Ok _ | Ok _, Ok (JDict _) => False
  | Ok _, Ok _ => True
  | _, _ => False
  end.

Definition same_reading (type type' : json) : Prop :=
  getitem type "type" = getitem type' "type" ∧
  same_mapping (field_mapping type) (field_mapping type').

Definition same_types (r r' : result (list json)) : Prop :=
  match r, r' with
  | Err e, Err e' => e = e'
  | Ok types, Ok types' => Forall2 same_reading types types'
  | _, _ => False
  end.

(** A type without a field mapping, with an entry that the script does
    not read. *)
Definition annotated_bare_type : json :=
  JDict [("type", JStr "document"); ("on_path", JStr "documents")].

Definition annotated_person_config : json :=
  JDict
    [ ("batch_size", JInt 128);
      ("types", JList [annotated_person_type]);
      ("persist_indexes", JBool true) ].

(** * Properties *)

(** ** Results *)

Lemma bind_Ok {A B} (r : result A) (f : A → result B) (b : B) :
  r ≫= f = Ok b ↔ ∃ a, r = Ok a ∧ f a = Ok b.
Proof.
  unfold mbind, result_bind. destruct r as [a|e]; split.
  - intros H. by exists a.
  - by intros (a' & [= <-] & H).
  - discriminate.
  - by intros (a' & [=] & _).
Qed.

Lemma bind_Err {A B} (r : result A) (f : A → result B) (e : exn) :
  r ≫= f = Err e ↔ r = Err e ∨ ∃ a, r = Ok a ∧ f a = Err e.
Proof.
  unfold mbind, result_bind. destruct r as [a|e']; split.
  - intros H. right. by exists a.
  - by intros [[=] | (a' & [= <-] & H)].
  - intros [= ->]. by left.
  - by intros [[= ->] | (a' & [=] & _)].
Qed.

Lemma result_cases {A} (r : result A) : is_Ok r ∨ is_Err r.
Proof. destruct r as [a|e]; [left; by exists a | right; by exists e]. Qed.

Lemma is_Ok_not_Err {A} (r : result A) : is_Ok r → is_Err r → False.
Proof. by intros [a ->] [e [=]]. Qed.

Lemma bind_is_Err {A B} (r : result A) (f : A → result B) :
  is_Err r → is_Err (r ≫= f).
Proof. intros [e ->]. by exists e. Qed.

(** ** Dictionaries *)

Section dict_facts.
Context {A : Type}.
Implicit Types (d : dict A) (k : string) (v : A).

Lemma dict_get_set_eq d k v : dict_get (dict_set d k v) k = Some v.
Proof.
  induction d as [|[k' v'] d IH]; simpl.
  - by rewrite decide_True.
  - destruct (decide (k' = k)) as [->|Hne]; simpl.
    + by rewrite decide_True.
    + by rewrite decide_False.
Qed.

Lemma dict_get_set_ne d k k' v :
  k ≠ k' → dict_get (dict_set d k v) k' = dict_get d k'.
Proof.
  intros Hne. induction d as [|[k0 v0] d IH]; simpl.
  - by rewrite decide_False.
  - destruct (decide (k0 = k)) as [->|Hne0]; simpl.
    + by rewrite !decide_False.
    + by rewrite IH.
Qed.

Lemma dict_set_set d k v v' :
  dict_set (dict_set d k v) k v' = dict_set d k v'.
Proof.
  induction d as [|[k0 v0] d IH]; simpl.
  - by rewrite decide_True.
  - destruct (decide (k0 = k)) as [->|Hne0]; simpl.
    + by rewrite decide_True.
    + by rewrite decide_False, IH.
Qed.

Lemma dict_get_None d k : dict_get d k = None ↔ k ∉ dict_keys d.
Proof.
  unfold dict_keys. induction d as [|[k0 v0] d IH]; simpl.
  - split; [intros _; apply not_elem_of_nil | done].
  - rewrite not_elem_of_cons. destruct (decide (k0 = k)) as [->|Hne].
    + split; [done | by intros [? _]].
    + rewrite IH. split; [|by intros [_ ?]].
      intros ?. split; [by intros ->|done].
Qed.

Lemma dict_get_is_Some d k : is_Some (dict_get d k) ↔ k ∈ dict_keys d.
Proof.
  rewrite <-not_eq_None_Some, dict_get_None.
  split; [apply dec_stable | by intros ? ?].
Qed.

Lemma dict_get_Some_elem d k v : dict_get d k = Some v → (k, v) ∈ d.
Proof.
  induction d as [|[k0 v0] d IH]; simpl; [done|].
  destruct (decide (k0 = k)) as [->|Hne].
  - intros [= ->]. apply elem_of_cons. by left.
  - intros H. apply elem_of_cons. right. by apply IH.
Qed.

Lemma dict_get_NoDup d k v :
  NoDup (dict_keys d) → (k, v) ∈ d → dict_get d k = Some v.
Proof.
  unfold dict_keys. induction d as [|[k0 v0] d IH]; simpl.
  - intros _ H. by apply elem_of_nil in H.
  - rewrite NoDup_cons. intros [Hk0 Hd] [[= -> ->]|Hin]%elem_of_cons.
    + by rewrite decide_True.
    + rewrite decide_False; [by apply IH|].
      intros ->. apply Hk0. apply list_elem_of_fmap. by exists (k, v).
Qed.

Lemma dict_set_fresh d k v :
  k ∉ dict_keys d → dict_set d k v = d ++ [(k, v)].
Proof.
  unfold dict_keys. induction d as [|[k0 v0] d IH]; simpl; [done|].
  rewrite not_elem_of_cons. intros [Hne Hk].
  rewrite decide_False by done. by rewrite IH.
Qed.

Lemma dict_keys_set_present d k v :
  k ∈ dict_keys d → dict_keys (dict_set d k v) = dict_keys d.
Proof.
  unfold dict_keys. induction d as [|[k0 v0] d IH]; simpl.
  - intros H. by apply elem_of_nil in H.
  - destruct (decide (k0 = k)) as [->|Hne]; simpl; [done|].
    intros [?|Hin]%elem_of_cons; [done|]. f_equal. by apply IH.
Qed.

Lemma elem_of_dict_keys_set d k v k' :
  k' ∈ dict_keys (dict_set d k v) ↔ k' = k ∨ k' ∈ dict_keys d.
Proof.
  destruct (decide (k ∈ dict_keys d)) as [Hin|Hnin].
  - rewrite dict_keys_set_present by done. naive_solver.
  - rewrite dict_set_fresh by done. unfold dict_keys.
    rewrite fmap_app, elem_of_app. simpl. rewrite list_elem_of_singleton.
    naive_solver.
Qed.

Lemma NoDup_dict_set d k v :
  NoDup (dict_keys d) → NoDup (dict_keys (dict_set d k v)).
Proof.
  intros Hd. destruct (decide (k ∈ dict_keys d)) as [Hin|Hnin].
  - by rewrite dict_keys_set_present.
  - rewrite dict_set_fresh by done. unfold dict_keys in *.
    rewrite fmap_app. simpl. apply NoDup_app. split; [done|].
    split; [|apply NoDup_singleton].
    intros k' Hk' ->%list_elem_of_singleton. done.
Qed.
End dict_facts.

Section dict_update_facts.
Context {A : Type}.
Implicit Types (d : dict A) (k : string) (v : A) (kvs : list (string * A)).

Lemma dict_update_cons d k v kvs :
  dict_update d ((k, v) :: kvs) = dict_update (dict_set d k v) kvs.
Proof. done. Qed.

Lemma dict_update_snoc d kvs k v :
  dict_update d (kvs ++ [(k, v)]) = dict_set (dict_update d kvs) k v.
Proof. unfold dict_update. by rewrite foldl_snoc. Qed.

Lemma dict_update_app d kvs kvs' :
  dict_update d (kvs ++ kvs') = dict_update (dict_update d kvs) kvs'.
Proof. unfold dict_update. by rewrite foldl_app. Qed.

Lemma NoDup_dict_update d kvs :
  NoDup (dict_keys d) → NoDup (dict_keys (dict_update d kvs)).
Proof.
  revert d. induction kvs as [|[k v] kvs IH]; intros d Hd; [done|].
  rewrite dict_update_cons. by apply IH, NoDup_dict_set.
Qed.

Lemma elem_of_dict_keys_update d kvs k :
  k ∈ dict_keys (dict_update d kvs) ↔ k ∈ dict_keys d ∨ k ∈ kvs.*1.
Proof.
  revert d. induction kvs as [|[k0 v0] kvs IH]; intros d.
  - simpl. split; [by left | intros [?|H]; [done|]]. by apply elem_of_nil in H.
  - rewrite dict_update_cons, IH, elem_of_dict_keys_set. simpl.
    rewrite elem_of_cons. tauto.
Qed.

Lemma dict_get_update_notin d kvs k :
  k ∉ kvs.*1 → dict_get (dict_update d kvs) k = dict_get d k.
Proof.
  revert d. induction kvs as [|[k0 v0] kvs IH]; intros d; [done|].
  rewrite fmap_cons, not_elem_of_cons. intros [Hne Hk].
  rewrite dict_update_cons, IH by done. by apply dict_get_set_ne.
Qed.

(** The last assignment to a key is the one that stays. *)
Lemma dict_get_update_last d pre k v post :
  k ∉ post.*1 →
  dict_get (dict_update d (pre ++ (k, v) :: post)) k = Some v.
Proof.
  intros Hk. rewrite dict_update_app, dict_update_cons.
  rewrite dict_get_update_notin by done. apply dict_get_set_eq.
Qed.

Lemma dict_get_update_elem d kvs k v :
  dict_get (dict_update d kvs) k = Some v →
  (k, v) ∈ kvs ∨ dict_get d k = Some v.
Proof.
  revert d. induction kvs as [|[k0 v0] kvs IH]; intros d; [by right|].
  rewrite dict_update_cons. intros [Hin|Hget]%IH.
  - left. by apply list_elem_of_further.
  - destruct (decide (k0 = k)) as [->|Hne].
    + rewrite dict_get_set_eq in Hget. injection Hget as ->.
      left. apply list_elem_of_here.
    + rewrite dict_get_set_ne in Hget by done. by right.
Qed.

Lemma dict_update_fresh d kvs :
  NoDup (dict_keys d ++ kvs.*1) → dict_update d kvs = d ++ kvs.
Proof.
  revert d. induction kvs as [|[k v] kvs IH]; intros d Hd.
  - by rewrite app_nil_r.
  - rewrite dict_update_cons. simpl in Hd.
    assert (k ∉ dict_keys d) as Hk.
    { apply NoDup_app in Hd as (_ & Hd & _). intros Hin.
      apply (Hd _ Hin), list_elem_of_here. }
    rewrite dict_set_fresh by done. rewrite IH.
    + by rewrite <-app_assoc.
    + unfold dict_keys in *. rewrite fmap_app, <-app_assoc. done.
Qed.

(** With pairwise different keys, [update] on an empty dictionary keeps
    every pair, in order. *)
Lemma dict_update_nil kvs : NoDup kvs.*1 → dict_update [] kvs = kvs.
Proof. intros H. by rewrite dict_update_fresh. Qed.
End dict_update_facts.

(** ** Loops that stop at the first exception *)

Section mapM_result.
Context {A B : Type} (f : A → result B).

Lemma mapM_result_cons x l :
  mapM f (x :: l) = (y ← f x; k ← mapM f l; Ok (y :: k)).
Proof. done. Qed.

Lemma mapM_result_Ok l k :
  mapM f l = Ok k ↔ Forall2 (λ x y, f x = Ok y) l k.
Proof.
  revert k. induction l as [|x l IH]; intros k.
  - split.
    + intros [= <-]. constructor.
    + by intros ->%Forall2_nil_inv_l.
  - rewrite mapM_result_cons, bind_Ok. split.
    + intros (y & Hy & (k' & Hk' & [= <-])%bind_Ok).
      constructor; [done|]. by apply IH.
    + intros (y & k' & Hy & Hk' & ->)%Forall2_cons_inv_l.
      exists y. split; [done|]. apply bind_Ok. exists k'.
      split; [by apply IH | done].
Qed.

(** The exception is the one of the first element that raises. *)
Lemma mapM_result_Err l e :
  mapM f l = Err e ↔
  ∃ pre x post,
    l = pre ++ x :: post ∧ Forall (λ x, is_Ok (f x)) pre ∧ f x = Err e.
Proof.
  induction l as [|x l IH].
  - split; [done|]. intros (pre & x & post & Hl & _).
    by destruct pre.
  - rewrite mapM_result_cons, bind_Err. split.
    + intros [Hx | (y & Hy & [Hl | (k & _ & [=])]%bind_Err)].
      * exists [], x, l. by repeat split.
      * apply IH in Hl as (pre & x' & post & -> & Hpre & Hx').
        exists (x :: pre), x', post. repeat split; [|done].
        constructor; [by exists y | done].
    + intros (pre & x' & post & Hl & Hpre & Hx').
      destruct pre as [|x0 pre]; simplify_eq/=; [by left|].
      apply Forall_cons in Hpre as [[y Hy] Hpre]. right. exists y.
      split; [done|]. apply bind_Err. left. apply IH.
      by exists pre, x', post.
Qed.

Lemma mapM_result_is_Err l x :
  x ∈ l → is_Err (f x) → is_Err (mapM f l).
Proof.
  induction l as [|x0 l IH]; intros Hin Hx.
  - by apply elem_of_nil in Hin.
  - rewrite mapM_result_cons.
    apply elem_of_cons in Hin as [->|Hin]; [by apply bind_is_Err|].
    destruct (f x0) as [y|e] eqn:Hy; [|by exists e].
    destruct (IH Hin Hx) as [e He]. exists e.
    apply bind_Err. right. exists y. split; [done|].
    apply bind_Err. by left.
Qed.

Lemma mapM_result_cases l :
  is_Ok (mapM f l) ↔ Forall (λ x, is_Ok (f x)) l.
Proof.
  split.
  - intros [k Hk%mapM_result_Ok].
    induction Hk as [|x y l k Hxy _ IH]; constructor; [by exists y | done].
  - induction 1 as [|x l [y Hy] _ [k Hk]]; [by exists []|].
    exists (y :: k). rewrite mapM_result_cons.
    apply bind_Ok. exists y. split; [done|].
    apply bind_Ok. by exists k.
Qed.
End mapM_result.

(** ** The loops of the script, in closed form *)

Lemma openapi_props_loop_eq (its : dict json) (openapi_props : dict (dict json)) :
  openapi_props_loop its openapi_props =
  (r ← field_schemas its; Ok (dict_update openapi_props r)).
Proof.
  revert openapi_props. unfold field_schemas.
  induction its as [|[key props] its IH]; intros acc; [done|].
  rewrite mapM_result_cons. simpl. unfold field_entry, field_type. simpl.
  destruct (getitem props "type") as [t|e]; [|done]. simpl.
  destruct (es_type_lookup t) as [ty|e]; [|done]. simpl.
  rewrite IH. by destruct (mapM _ its).
Qed.

Lemma search_conf_props_eq (fields : dict json) :
  search_conf_props_to_openapi_props (JDict fields) =
  (r ← field_schemas fields; Ok (dict_update [] r)).
Proof. apply openapi_props_loop_eq. Qed.

Lemma openapi_filter_qp_loop_eq (its : dict json) (properties : dict json) :
  openapi_filter_qp_loop its properties =
  (r ← field_schemas its;
   Ok (dict_update properties (prod_map id JDict <$> r))).
Proof.
  revert properties. unfold field_schemas.
  induction its as [|[key props] its IH]; intros acc; [done|].
  rewrite mapM_result_cons. simpl. unfold field_entry, field_type. simpl.
  destruct (getitem props "type") as [t|e]; [|done]. simpl.
  destruct (es_type_lookup t) as [ty|e]; [|done]. simpl.
  rewrite IH. by destruct (mapM _ its).
Qed.

Section loops.
Variable repr_str : string → string.

Lemma types_loop_body_eq (type : json) (paths_obj : dict json) :
  types_loop_body repr_str type paths_obj =
  (e ← type_entry repr_str type; Ok (dict_set paths_obj e.1 e.2)).
Proof.
  unfold types_loop_body, type_entry.
  destruct (getitem type "type") as [name|e]; [|done]. simpl.
  destruct (type_props type) as [props|e]; [|done]. simpl.
  unfold parameters_ref, parameters_store. simpl.
  repeat (progress (rewrite ?dict_set_set, ?dict_get_set_eq; simpl)).
  done.
Qed.

Lemma types_loop_eq (types : list json) (paths_obj : dict json) :
  types_loop repr_str types paths_obj =
  (es ← type_entries repr_str types; Ok (dict_update paths_obj es)).
Proof.
  revert paths_obj. unfold type_entries.
  induction types as [|type types IH]; intros acc; [done|].
  rewrite mapM_result_cons. simpl. rewrite types_loop_body_eq.
  destruct (type_entry repr_str type) as [[path item]|e]; [|done]. simpl.
  rewrite IH. by destruct (mapM _ types).
Qed.

Lemma compile_eq (mu_search_config : json) :
  compile repr_str mu_search_config =
  (types ← getitem mu_search_config "types";
   types ← iter types;
   es ← type_entries repr_str types;
   Ok (document (dict_update [] es))).
Proof.
  unfold compile.
  destruct (getitem mu_search_config "types") as [types|e]; [|done]. simpl.
  destruct (iter types) as [entries|e]; [|done]. simpl.
  rewrite types_loop_eq.
  by destruct (type_entries repr_str entries).
Qed.
End loops.

(** ** The table and the field mapping *)

Lemma es_type_lookup_Ok (t : json) (ty : string) :
  es_type_lookup t = Ok ty ↔
  (t = JStr "text" ∨ t = JStr "keyword" ∨ t = JStr "date") ∧ ty = "string" ∨
  t = JStr "integer" ∧ ty = "integer".
Proof.
  split.
  - destruct t as [| | | |s| |]; try done. simpl.
    repeat case_decide; subst; intros [= <-]; tauto.
  - intros [[[->| [->| ->]] ->] | [-> ->]]; done.
Qed.

Lemma es_type_lookup_Err (t : json) (e : exn) :
  es_type_lookup t = Err e → e = KeyError t ∨ e = TypeError Unhashable.
Proof.
  destruct t as [| | | |s| |]; simpl;
    try (intros [=]; subst; (by left) || (by right)).
  repeat case_decide; intros [=]; subst; by left.
Qed.

Lemma es_type_lookup_is_Ok (t : json) :
  is_Ok (es_type_lookup t) ↔ t ∈ supported_types.
Proof.
  split.
  - intros [ty [[[-> | [-> | ->]] _] | [-> _]]%es_type_lookup_Ok];
      unfold supported_types; simpl; set_solver.
  - unfold supported_types. simpl. intros H.
    repeat apply elem_of_cons in H as [->|H]; [by eexists..|].
    by apply elem_of_nil in H.
Qed.

Lemma es_type_lookup_unsupported (t : json) :
  t ∉ supported_types →
  es_type_lookup t = Err (KeyError t) ∨
  es_type_lookup t = Err (TypeError Unhashable).
Proof.
  intros Ht. destruct (es_type_lookup t) as [ty|e] eqn:H.
  - destruct Ht. apply es_type_lookup_is_Ok. by exists ty.
  - apply es_type_lookup_Err in H as [-> | ->]; tauto.
Qed.

Lemma es_type_lookup_str (s : string) :
  JStr s ∉ supported_types →
  es_type_lookup (JStr s) = Err (KeyError (JStr s)).
Proof.
  intros [H|H]%es_type_lookup_unsupported; [done|].
  simpl in H. by repeat case_decide.
Qed.

Lemma field_schemas_Ok (its : dict json) (r : dict (dict json)) :
  field_schemas its = Ok r ↔
  Forall2 (λ kv kv', ∃ ty,
             field_type kv.2 = Ok ty ∧ kv' = (kv.1, field_schema ty)) its r.
Proof.
  unfold field_schemas. rewrite mapM_result_Ok.
  split; intros H; (eapply Forall2_impl; [exact H|]);
    intros [key props] [key' o]; unfold field_entry;
    rewrite bind_Ok; naive_solver.
Qed.

Lemma field_schemas_keys (its : dict json) (r : dict (dict json)) :
  field_schemas its = Ok r → dict_keys r = dict_keys its.
Proof.
  intros H%field_schemas_Ok. unfold dict_keys.
  induction H as [|[k p] [k' o] its r (ty & _ & [= -> ->]) _ IH]; [done|].
  simpl. by f_equal.
Qed.

Lemma field_schemas_values (its : dict json) (r : dict (dict json)) k o :
  field_schemas its = Ok r → (k, o) ∈ r →
  ∃ props ty, (k, props) ∈ its ∧ field_type props = Ok ty ∧ o = field_schema ty.
Proof.
  intros H%field_schemas_Ok Hin.
  induction H as [|[k0 p] [k' o'] its r (ty & Hty & [= -> ->]) _ IH].
  - by apply elem_of_nil in Hin.
  - apply elem_of_cons in Hin as [[= -> ->]|Hin].
    + exists p, ty. split; [apply list_elem_of_here | done].
    + destruct (IH Hin) as (props & ty' & ? & ? & ?).
      exists props, ty'. split; [by apply list_elem_of_further | done].
Qed.

Lemma type_props_eq (type : json) :
  type_props type =
  (properties ← field_mapping type;
   search_conf_props_to_openapi_props properties).
Proof.
  unfold type_props, field_mapping.
  by destruct (getitem type "mappings").
Qed.

Lemma type_props_Ok (type : json) (props : dict (dict json)) :
  type_props type = Ok props ↔
  ∃ fields r,
    field_mapping type = Ok (JDict fields) ∧
    field_schemas fields = Ok r ∧
    props = dict_update [] r.
Proof.
  rewrite type_props_eq, bind_Ok. split.
  - intros (properties & Hm & Hs).
    destruct properties as [| | | | | |fields]; try done.
    rewrite search_conf_props_eq in Hs.
    apply bind_Ok in Hs as (r & Hr & [= <-]). by exists fields, r.
  - intros (fields & r & Hm & Hr & ->). exists (JDict fields).
    split; [done|]. rewrite search_conf_props_eq. apply bind_Ok. by exists r.
Qed.

(** ** Documents *)

Lemma elem_of_dict_set {A} (d : dict A) k v k' v' :
  (k', v') ∈ dict_set d k v → (k', v') = (k, v) ∨ (k', v') ∈ d.
Proof.
  induction d as [|[k0 v0] d IH]; simpl.
  - intros ->%list_elem_of_singleton. by left.
  - destruct (decide (k0 = k)) as [->|Hne].
    + intros [->|Hin]%elem_of_cons; [by left|].
      right. by apply list_elem_of_further.
    + intros [->|Hin]%elem_of_cons; [right; apply list_elem_of_here|].
      destruct (IH Hin) as [->|Hd]; [by left|].
      right. by apply list_elem_of_further.
Qed.

Lemma elem_of_dict_update {A} (d : dict A) kvs k v :
  (k, v) ∈ dict_update d kvs → (k, v) ∈ kvs ∨ (k, v) ∈ d.
Proof.
  revert d. induction kvs as [|[k0 v0] kvs IH]; intros d; [by right|].
  rewrite dict_update_cons. intros [Hin|Hin]%IH.
  - left. by apply list_elem_of_further.
  - apply elem_of_dict_set in Hin as [->|Hin]; [|by right].
    left. apply list_elem_of_here.
Qed.

Lemma document_paths (paths : dict json) (path : string) :
  path_item_at (document paths) path = dict_get paths path.
Proof. unfold path_item_at. simpl. by destruct (dict_get paths path). Qed.

Lemma path_item_attributes name props :
  json_at (path_item name props) attributes_properties = Some (props_json props).
Proof. done. Qed.

Lemma path_item_filter name props :
  json_at (path_item name props) filter_properties = Some (props_json props).
Proof. done. Qed.

Lemma path_item_sort name props :
  json_at (path_item name props) sort_properties =
  Some (props_json (sort_enum_loop props)).
Proof. done. Qed.

Section documents.
Variable repr_str : string → string.

Lemma type_entry_Ok (type : json) (path : string) (item : json) :
  type_entry repr_str type = Ok (path, item) ↔
  ∃ name props,
    getitem type "type" = Ok name ∧
    type_props type = Ok props ∧
    path = search_path repr_str name ∧
    item = path_item (format_value repr_str name) props.
Proof.
  unfold type_entry. rewrite bind_Ok. split.
  - intros (name & Hname & (props & Hprops & [= <- <-])%bind_Ok).
    by exists name, props.
  - intros (name & props & Hname & Hprops & -> & ->).
    exists name. split; [done|]. apply bind_Ok. by exists props.
Qed.

Lemma type_entry_path (type : json) (path : string) (item : json) :
  type_entry repr_str type = Ok (path, item) →
  type_path repr_str type = Ok path.
Proof.
  intros (name & props & Hname & _ & -> & _)%type_entry_Ok.
  unfold type_path. by rewrite Hname.
Qed.

Lemma type_entries_Ok (types : list json) (es : dict json) :
  type_entries repr_str types = Ok es ↔
  Forall2 (λ type e, type_entry repr_str type = Ok e) types es.
Proof. apply mapM_result_Ok. Qed.

Lemma compile_types_of (mu_search_config : json) :
  compile repr_str mu_search_config =
  (types ← types_of mu_search_config;
   es ← type_entries repr_str types;
   Ok (document (dict_update [] es))).
Proof.
  rewrite compile_eq. unfold types_of.
  by destruct (getitem mu_search_config "types").
Qed.

Lemma compile_Ok (mu_search_config doc : json) :
  compile repr_str mu_search_config = Ok doc ↔
  ∃ types es,
    types_of mu_search_config = Ok types ∧
    type_entries repr_str types = Ok es ∧
    doc = document (dict_update [] es).
Proof.
  rewrite compile_types_of, bind_Ok. split.
  - intros (types & Ht & (es & He & [= <-])%bind_Ok). by exists types, es.
  - intros (types & es & Ht & He & ->). exists types. split; [done|].
    apply bind_Ok. by exists es.
Qed.

Lemma compile_Err (mu_search_config : json) (e : exn) :
  compile repr_str mu_search_config = Err e ↔
  types_of mu_search_config = Err e ∨
  ∃ types,
    types_of mu_search_config = Ok types ∧
    type_entries repr_str types = Err e.
Proof.
  rewrite compile_types_of, bind_Err. split.
  - intros [H | (types & Ht & [He | (es & _ & [=])]%bind_Err)];
      [by left | right; by exists types].
  - intros [H | (types & Ht & He)]; [by left|]. right. exists types.
    split; [done|]. apply bind_Err. by left.
Qed.

(** Every path item of a document comes from one of the types. *)
Lemma compile_item (mu_search_config doc : json) (path : string) (item : json) :
  compile repr_str mu_search_config = Ok doc →
  path_item_at doc path = Some item →
  ∃ types type,
    types_of mu_search_config = Ok types ∧
    type ∈ types ∧
    type_entry repr_str type = Ok (path, item).
Proof.
  intros (types & es & Ht & He & ->)%compile_Ok. rewrite document_paths.
  intros [Hin|Hin]%dict_get_update_elem; [|done].
  apply type_entries_Ok in He.
  apply list_elem_of_lookup in Hin as [i Hi].
  destruct (Forall2_lookup_r _ _ _ _ _ He Hi) as (type & Htype & Hentry).
  exists types, type. split; [done|]. split; [|done].
  by apply list_elem_of_lookup_2 in Htype.
Qed.
End documents.

(** ** The schemas of a path item *)

Lemma field_type_cases (props : json) (ty : string) :
  field_type props = Ok ty → ty = "string" ∨ ty = "integer".
Proof.
  unfold field_type. intros (t & _ & Ht)%bind_Ok.
  apply es_type_lookup_Ok in Ht as [[_ ->]|[_ ->]]; tauto.
Qed.

(** Every property that [search_conf_props_to_openapi_props] returns is
    [{"type": ty}] for a field of the mapping. *)
Lemma type_props_values (type : json) (props : dict (dict json)) k o :
  type_props type = Ok props → (k, o) ∈ props →
  ∃ fields p ty,
    field_mapping type = Ok (JDict fields) ∧
    (k, p) ∈ fields ∧
    field_type p = Ok ty ∧
    o = field_schema ty.
Proof.
  intros (fields & r & Hm & Hr & ->)%type_props_Ok Hin.
  apply elem_of_dict_update in Hin as [Hin|Hin]; [|by apply elem_of_nil in Hin].
  destruct (field_schemas_values _ _ _ _ Hr Hin) as (p & ty & ? & ? & ?).
  by exists fields, p, ty.
Qed.

Lemma elem_of_props_json (ps : dict (dict json)) key schema :
  (key, schema) ∈ prod_map id JDict <$> ps ↔
  ∃ o, schema = JDict o ∧ (key, o) ∈ ps.
Proof.
  rewrite list_elem_of_fmap. split.
  - intros ([k o] & [= -> ->] & Hin). by exists o.
  - intros (o & -> & Hin). by exists (key, o).
Qed.

Lemma elem_of_sort_enum_loop (ps : dict (dict json)) key o :
  (key, o) ∈ sort_enum_loop ps ↔
  ∃ o', o = dict_set o' "enum" (JList [JStr "asc"; JStr "desc"]) ∧
        (key, o') ∈ ps.
Proof.
  unfold sort_enum_loop. rewrite list_elem_of_fmap. split.
  - intros ([k o'] & [= -> ->] & Hin). by exists o'.
  - intros (o' & -> & Hin). by exists (key, o').
Qed.

(** C5.  In every document that [compile] returns, the parameters of every
    path item are, in this order, a parameter named [filter], a parameter
    named [sort], the [page] parameter and the [collapse_uuids] parameter,
    and nothing else. *)
Theorem parameters_order (repr_str : string → string)
    (mu_search_config doc : json) (path : string) (item : json) :
  compile repr_str mu_search_config = Ok doc →
  path_item_at doc path = Some item →
  ∃ filter sort,
    json_at item [Key "parameters"] =
      Some (JList [filter; sort; page_parameter; collapse_uuids_parameter]) ∧
    json_at filter [Key "name"] = Some (JStr "filter") ∧
    json_at sort [Key "name"] = Some (JStr "sort") ∧
    json_at page_parameter [Key "name"] = Some (JStr "page") ∧
    json_at collapse_uuids_parameter [Key "name"] = Some (JStr "collapse_uuids").
Proof.
  intros Hdoc Hitem.
  destruct (compile_item _ _ _ _ _ Hdoc Hitem) as (types & type & _ & _ & He).
  apply type_entry_Ok in He as (name & props & _ & _ & _ & ->).
  by eexists _, _.
Qed.

Lemma parameters_order_witness :
  ∃ filter sort,
    json_at person_item [Key "parameters"] =
      Some (JList [filter; sort; page_parameter; collapse_uuids_parameter]) ∧
    json_at filter [Key "name"] = Some (JStr "filter") ∧
    json_at sort [Key "name"] = Some (JStr "sort") ∧
    json_at page_parameter [Key "name"] = Some (JStr "page") ∧
    json_at collapse_uuids_parameter [Key "name"] = Some (JStr "collapse_uuids").
Proof.
  apply (parameters_order repr_plain person_config person_doc
           "/person/search" person_item); reflexivity.
Defined.

(** C6.  The third and the fourth parameter of any two path items, of one
    document or of the documents of two configurations, are the same
    values: the [page] parameter, an object schema with the two integer
    properties [size] and [number], and the [collapse_uuids] parameter, a
    string schema with the enum [["t"]]. *)
Theorem static_parameters_constant (repr_str : string → string)
    (config config' doc doc' : json) (path path' : string)
    (item item' : json) :
  compile repr_str config = Ok doc →
  compile repr_str config' = Ok doc' →
  path_item_at doc path = Some item →
  path_item_at doc' path' = Some item' →
  json_at item [Key "parameters"; Idx 2] = Some page_parameter ∧
  json_at item' [Key "parameters"; Idx 2] = Some page_parameter ∧
  json_at item [Key "parameters"; Idx 3] = Some collapse_uuids_parameter ∧
  json_at item' [Key "parameters"; Idx 3] = Some collapse_uuids_parameter ∧
  json_at page_parameter [Key "schema"] =
    Some (JDict
            [ ("type", JStr "object");
              ("properties", JDict
                 [ ("size", JDict [("type", JStr "integer")]);
                   ("number", JDict [("type", JStr "integer")]) ]) ]) ∧
  json_at collapse_uuids_parameter [Key "schema"] =
    Some (JDict [("type", JStr "string"); ("enum", JList [JStr "t"])]).
Proof.
  intros Hdoc Hdoc' Hitem Hitem'.
  destruct (compile_item _ _ _ _ _ Hdoc Hitem) as (? & ? & _ & _ & He).
  destruct (compile_item _ _ _ _ _ Hdoc' Hitem') as (? & ? & _ & _ & He').
  apply type_entry_Ok in He as (? & ? & _ & _ & _ & ->).
  apply type_entry_Ok in He' as (? & ? & _ & _ & _ & ->).
  done.
Qed.

(** ** Field coverage *)

Lemma dict_keys_props_json (ps : dict (dict json)) :
  property_names (props_json ps) = Some (dict_keys ps).
Proof.
  unfold props_json, property_names, dict_keys. f_equal.
  rewrite <-list_fmap_compose. by apply list_fmap_ext; intros ? [].
Qed.

Lemma dict_keys_sort_enum_loop (ps : dict (dict json)) :
  dict_keys (sort_enum_loop ps) = dict_keys ps.
Proof.
  unfold sort_enum_loop, dict_keys.
  rewrite <-list_fmap_compose. by apply list_fmap_ext; intros ? [].
Qed.

Lemma type_props_keys (type : json) (props : dict (dict json)) :
  type_props type = Ok props →
  ∃ fields,
    field_mapping type = Ok (JDict fields) ∧
    list_to_set (dict_keys props) =@{gset string} list_to_set (dict_keys fields) ∧
    (NoDup (dict_keys fields) → dict_keys props = dict_keys fields).
Proof.
  intros (fields & r & Hm & Hr & ->)%type_props_Ok.
  apply field_schemas_keys in Hr. exists fields. split; [done|]. split.
  - apply set_eq. intros k. rewrite !elem_of_list_to_set.
    rewrite elem_of_dict_keys_update, <-Hr. unfold dict_keys. simpl.
    split; [intros [H|H]; [by apply elem_of_nil in H | done] | by right].
  - intros Hnd. rewrite <-Hr in Hnd. by rewrite dict_update_nil.
Qed.

Section coverage.
Variable repr_str : string → string.

Lemma type_entry_covers (type : json) (path : string) (item : json) :
  type_entry repr_str type = Ok (path, item) →
  ∃ fields, field_mapping type = Ok (JDict fields) ∧ covers item fields.
Proof.
  intros (name & props & _ & Hprops & _ & ->)%type_entry_Ok.
  destruct (type_props_keys _ _ Hprops) as (fields & Hm & Hset & Hseq).
  exists fields. split; [done|]. intros place Hplace.
  repeat apply elem_of_cons in Hplace as [->|Hplace];
    [| | |by apply elem_of_nil in Hplace].
  - eexists. split; [apply path_item_attributes|].
    exists (dict_keys props). by rewrite dict_keys_props_json.
  - eexists. split; [apply path_item_filter|].
    exists (dict_keys props). by rewrite dict_keys_props_json.
  - eexists. split; [apply path_item_sort|].
    exists (dict_keys props).
    by rewrite dict_keys_props_json, dict_keys_sort_enum_loop.
Qed.

(** The path item of a type stays in the document unless a later type
    has the same path. *)
Lemma compile_item_last (mu_search_config doc : json)
    (pre : list json) (type : json) (post : list json) :
  compile repr_str mu_search_config = Ok doc →
  types_of mu_search_config = Ok (pre ++ type :: post) →
  (∀ type', type' ∈ post →
     type_path repr_str type' ≠ type_path repr_str type) →
  ∃ path item,
    type_entry repr_str type = Ok (path, item) ∧
    path_item_at doc path = Some item.
Proof.
  intros (types & es & Ht & He & ->)%compile_Ok Ht' Hpost.
  rewrite Ht in Ht'. injection Ht' as ->.
  apply type_entries_Ok in He.
  apply Forall2_app_inv_l in He as (es1 & es2 & _ & He & ->).
  apply Forall2_cons_inv_l in He as ([path item] & es3 & Hentry & He & ->).
  exists path, item. split; [done|].
  rewrite document_paths. apply dict_get_update_last.
  intros ([path' item'] & Hpath & Hin)%list_elem_of_fmap. simpl in Hpath.
  subst path'. apply list_elem_of_lookup in Hin as [i Hi].
  destruct (Forall2_lookup_r _ _ _ _ _ He Hi) as (type' & Htype' & Hentry').
  apply (Hpost type'); [by apply list_elem_of_lookup_2 in Htype'|].
  by rewrite (type_entry_path _ _ _ _ Hentry), (type_entry_path _ _ _ _ Hentry').
Qed.
End coverage.

Lemma json_at_app (v : json) (p q : list sel) :
  json_at v (p ++ q) = json_at v p ≫= λ x, json_at x q.
Proof.
  revert v. induction p as [|[k|i] p IH]; intros v; [done| |]; simpl.
  - destruct v as [| | | | | |d]; try done.
    destruct (dict_get d k); simpl; [apply IH | done].
  - destruct v as [| | | | |xs|]; try done.
    destruct (xs !! i); simpl; [apply IH | done].
Qed.

Lemma dict_get_fmap {A B} (g : A → B) (h : string * A → string * B)
    (d : dict A) (k : string) :
  (∀ kv, h kv = (kv.1, g kv.2)) →
  dict_get (h <$> d) k = g <$> dict_get d k.
Proof.
  intros Hh. induction d as [|[k0 v0] d IH]; [done|].
  rewrite fmap_cons, Hh. simpl. case_decide; [done | apply IH].
Qed.

Lemma type_entry_sort_enum (repr_str : string → string) (type : json)
    (path : string) (item : json) :
  type_entry repr_str type = Ok (path, item) → sort_enum item.
Proof.
  intros (name & props & _ & Hprops & _ & ->)%type_entry_Ok.
  eexists. split; [apply path_item_sort|].
  intros key schema
    (o & -> & (o' & -> & Hin)%elem_of_sort_enum_loop)%elem_of_props_json.
  destruct (type_props_values _ _ _ _ Hprops Hin) as (_ & _ & ty & _ & _ & _ & ->).
  split; [done|]. by exists ty.
Qed.

Lemma type_entry_sortable (repr_str : string → string) (type : json)
    (path : string) (item : json) :
  type_entry repr_str type = Ok (path, item) →
  ∃ fields, field_mapping type = Ok (JDict fields) ∧ sortable item fields.
Proof.
  intros (name & props & _ & Hprops & _ & ->)%type_entry_Ok.
  destruct (type_props_keys _ _ Hprops) as (fields & Hm & Hset & _).
  exists fields. split; [done|]. intros key p Hin.
  assert (key ∈ dict_keys props) as [o Ho]%dict_get_is_Some.
  { apply (elem_of_list_to_set (C:=gset string)). rewrite Hset.
    apply elem_of_list_to_set, list_elem_of_fmap. by exists (key, p). }
  destruct (type_props_values _ _ _ _ Hprops (dict_get_Some_elem _ _ _ Ho))
    as (fields' & p' & ty & Hm' & Hp' & Hty & ->).
  rewrite Hm in Hm'. injection Hm' as <-.
  exists p', ty. do 2 (split; [done|]). split.
  - intros Hnd. apply (dict_get_NoDup _ _ _ Hnd) in Hin, Hp'. congruence.
  - rewrite json_at_app, path_item_sort. unfold props_json, sort_enum_loop.
    simpl.
    rewrite (dict_get_fmap JDict) by (by intros []).
    rewrite (dict_get_fmap
               (λ o, dict_set o "enum" (JList [JStr "asc"; JStr "desc"])))
      by done.
    by rewrite Ho.
Qed.

(** C3.  In every document that [compile] returns, the sort schema of
    every path item gives each of its properties the enum [["asc",
    "desc"]], the property being [{"type": ty, "enum": ["asc", "desc"]}]
    whatever the type [ty] is; the item is the one the loop builds for a
    type of the configuration, and every field of that type has such a
    property.  For every type of the configuration and every field of it,
    the sort parameter that the loop builds for the type has the property
    of the field with that enum, and the document has a path item at the
    path of the type. *)
Theorem sort_enum_invariant (repr_str : string → string)
    (mu_search_config doc : json) :
  compile repr_str mu_search_config = Ok doc →
  ∃ types,
    types_of mu_search_config = Ok types ∧
    (∀ path item,
       path_item_at doc path = Some item →
       sort_enum item ∧
       ∃ type fields,
         type ∈ types ∧
         types_loop_body repr_str type [] = Ok [(path, item)] ∧
         field_mapping type = Ok (JDict fields) ∧
         sortable item fields) ∧
    (∀ type,
       type ∈ types →
       ∃ path item fields,
         types_loop_body repr_str type [] = Ok [(path, item)] ∧
         field_mapping type = Ok (JDict fields) ∧
         sort_enum item ∧
         sortable item fields ∧
         ∃ item', path_item_at doc path = Some item' ∧ sort_enum item').
Proof.
  intros Hdoc. pose proof Hdoc as (types & es & Ht & He & Hd)%compile_Ok.
  exists types. split; [done|].
  assert (∀ path item,
            path_item_at doc path = Some item →
            sort_enum item ∧
            ∃ type fields,
              type ∈ types ∧
              types_loop_body repr_str type [] = Ok [(path, item)] ∧
              field_mapping type = Ok (JDict fields) ∧
              sortable item fields) as Hitems.
  { intros path item Hitem.
    destruct (compile_item _ _ _ _ _ Hdoc Hitem)
      as (types' & type & Ht' & Hin & Hentry).
    rewrite Ht in Ht'. injection Ht' as <-.
    split; [by eapply type_entry_sort_enum|].
    destruct (type_entry_sortable _ _ _ _ Hentry) as (fields & Hm & Hf).
    exists type, fields. split; [done|]. split; [|done].
    by rewrite types_loop_body_eq, Hentry. }
  split; [done|].
  intros type [i Hi]%list_elem_of_lookup.
  apply type_entries_Ok in He.
  destruct (Forall2_lookup_l _ _ _ _ _ He Hi) as ([path item] & Hi' & Hentry).
  destruct (type_entry_sortable _ _ _ _ Hentry) as (fields & Hm & Hf).
  exists path, item, fields.
  split; [by rewrite types_loop_body_eq, Hentry|]. split; [done|].
  split; [by eapply type_entry_sort_enum|]. split; [done|].
  assert (path ∈ dict_keys (dict_update [] es)) as [item' Hitem']%dict_get_is_Some.
  { apply elem_of_dict_keys_update. right.
    apply list_elem_of_fmap. exists (path, item). split; [done|].
    by apply list_elem_of_lookup_2 in Hi'. }
  exists item'. rewrite Hd, document_paths. split; [done|].
  apply (Hitems path). by rewrite Hd, document_paths.
Qed.

Lemma sort_enum_invariant_witness :
  ∃ types,
    types_of two_types_config = Ok types ∧
    (∀ path item,
       path_item_at two_types_doc path = Some item →
       sort_enum item ∧
       ∃ type fields,
         type ∈ types ∧
         types_loop_body repr_plain type [] = Ok [(path, item)] ∧
         field_mapping type = Ok (JDict fields) ∧
         sortable item fields) ∧
    (∀ type,
       type ∈ types →
       ∃ path item fields,
         types_loop_body repr_plain type [] = Ok [(path, item)] ∧
         field_mapping type = Ok (JDict fields) ∧
         sort_enum item ∧
         sortable item fields ∧
         ∃ item', path_item_at two_types_doc path = Some item' ∧
                  sort_enum item').
Proof.
  apply (sort_enum_invariant repr_plain two_types_config two_types_doc).
  reflexivity.
Defined.

(** C4 does not hold as stated: of two types with one name the first has
    no path item of its own, and the item at its path has the fields of
    the second type, not its fields. *)
Lemma field_coverage_counterexample :
  compile repr_plain duplicate_config =
    Ok (document [("/person/search", person_item')]) ∧
  types_of duplicate_config = Ok [person_type; person_type'] ∧
  type_path repr_plain person_type = Ok "/person/search" ∧
  field_mapping person_type = Ok (JDict person_fields) ∧
  path_item_at (document [("/person/search", person_item')]) "/person/search" =
    Some person_item' ∧
  ¬ covers person_item' person_fields.
Proof.
  do 5 (split; [reflexivity|]). intros H.
  destruct (H attributes_properties) as (schema & Hs & names & Hn & Hset & _);
    [apply list_elem_of_here|].
  unfold person_item' in Hs. rewrite path_item_attributes in Hs.
  injection Hs as <-. rewrite dict_keys_props_json in Hn. injection Hn as <-.
  assert ("name" ∈@{gset string} list_to_set (dict_keys person_fields)) as Hin.
  { apply elem_of_list_to_set, list_elem_of_here. }
  rewrite <-Hset in Hin. apply elem_of_list_to_set in Hin.
  by apply list_elem_of_singleton in Hin.
Qed.

(** C4, amended.  Every path item of a document that [compile] returns is
    the one the loop builds for a type of the configuration with its path,
    and the property names of its response attributes, of its filter
    schema and of its sort schema are the field names of that type.  Every
    type whose path no later type takes has such a path item for its own
    fields in the document: every type, when the types have pairwise
    different paths. *)
Theorem field_coverage (repr_str : string → string)
    (mu_search_config doc : json) (types : list json) :
  compile repr_str mu_search_config = Ok doc →
  types_of mu_search_config = Ok types →
  (∀ path item,
     path_item_at doc path = Some item →
     ∃ type fields,
       type ∈ types ∧
       type_path repr_str type = Ok path ∧
       types_loop_body repr_str type [] = Ok [(path, item)] ∧
       field_mapping type = Ok (JDict fields) ∧
       covers item fields) ∧
  (∀ pre type post,
     types = pre ++ type :: post →
     (∀ type', type' ∈ post →
        type_path repr_str type' ≠ type_path repr_str type) →
     ∃ path item fields,
       type_path repr_str type = Ok path ∧
       path_item_at doc path = Some item ∧
       field_mapping type = Ok (JDict fields) ∧
       covers item fields) ∧
  (NoDup (type_path repr_str <$> types) →
   ∀ type,
     type ∈ types →
     ∃ path item fields,
       type_path repr_str type = Ok path ∧
       path_item_at doc path = Some item ∧
       field_mapping type = Ok (JDict fields) ∧
       covers item fields).
Proof.
  intros Hdoc Htypes.
  assert (∀ pre type post,
            types = pre ++ type :: post →
            (∀ type', type' ∈ post →
               type_path repr_str type' ≠ type_path repr_str type) →
            ∃ path item fields,
              type_path repr_str type = Ok path ∧
              path_item_at doc path = Some item ∧
              field_mapping type = Ok (JDict fields) ∧
              covers item fields) as Hlast.
  { intros pre type post -> Hpost.
    destruct (compile_item_last _ _ _ _ _ _ Hdoc Htypes Hpost)
      as (path & item & He & Hitem).
    destruct (type_entry_covers _ _ _ _ He) as (fields & Hm & Hc).
    exists path, item, fields. split; [|done].
    by apply type_entry_path in He. }
  split; [|split; [done|]].
  - intros path item Hitem.
    destruct (compile_item _ _ _ _ _ Hdoc Hitem) as (types' & type & Ht & Hin & He).
    rewrite Htypes in Ht. injection Ht as <-.
    destruct (type_entry_covers _ _ _ _ He) as (fields & Hm & Hc).
    exists type, fields. split; [done|].
    split; [by apply type_entry_path in He|].
    split; [by rewrite types_loop_body_eq, He | done].
  - intros Hnd type (pre & post & ->)%list_elem_of_split.
    apply (Hlast pre type post); [done|].
    rewrite fmap_app, fmap_cons in Hnd.
    apply NoDup_app in Hnd as (_ & _ & [Hnin _]%NoDup_cons).
    intros type' Hin Heq. apply Hnin. rewrite <-Heq.
    by apply list_elem_of_fmap_2.
Qed.

(** ** Types and fields that the script accepts *)

Lemma field_entry_accepted (kv : string * json) :
  is_Ok (field_entry kv) ↔ accepted_field kv.
Proof.
  unfold field_entry, field_type, accepted_field. split.
  - intros [r (ty & (t & Ht & Hty)%bind_Ok & _)%bind_Ok].
    exists t. split; [done|]. apply es_type_lookup_is_Ok. by exists ty.
  - intros (t & Ht & [ty Hty]%es_type_lookup_is_Ok).
    exists (kv.1, field_schema ty). apply bind_Ok. exists ty. split; [|done].
    apply bind_Ok. by exists t.
Qed.

Lemma type_props_accepted (type : json) :
  is_Ok (type_props type) ↔
  ∃ fields,
    field_mapping type = Ok (JDict fields) ∧ Forall accepted_field fields.
Proof.
  split.
  - intros [props (fields & r & Hm & Hr & _)%type_props_Ok].
    exists fields. split; [done|].
    assert (is_Ok (field_schemas fields)) as Hok by by exists r.
    apply mapM_result_cases in Hok.
    eapply Forall_impl; [exact Hok|]. intros kv. apply field_entry_accepted.
  - intros (fields & Hm & Hfields).
    assert (is_Ok (field_schemas fields)) as [r Hr].
    { apply mapM_result_cases. eapply Forall_impl; [exact Hfields|].
      intros kv. apply field_entry_accepted. }
    exists (dict_update [] r). apply type_props_Ok. by exists fields, r.
Qed.

Lemma type_entry_accepted (repr_str : string → string) (type : json) :
  is_Ok (type_entry repr_str type) ↔ accepted_type type.
Proof.
  unfold accepted_type. rewrite <-type_props_accepted. split.
  - intros [[path item] (name & props & Hname & Hprops & _)%type_entry_Ok].
    split; [by exists name | by exists props].
  - intros [[name Hname] [props Hprops]]. eexists (_, _).
    apply type_entry_Ok. by exists name, props.
Qed.

(** ** All or nothing *)

Lemma mapM_result_Err_elem {A B} (f : A → result B) (l : list A) (e : exn) :
  mapM f l = Err e → ∃ x, x ∈ l ∧ f x = Err e.
Proof.
  intros (pre & x & post & -> & _ & Hx)%mapM_result_Err.
  exists x. split; [|done]. apply elem_of_app. right. apply list_elem_of_here.
Qed.

Lemma main_Err (repr_str : string → string) (fs : files) (e : exn) :
  compile repr_str (config_json fs) = Err e → main repr_str fs = (fs, Some e).
Proof. unfold main. by intros ->. Qed.

Lemma main_Ok (repr_str : string → string) (fs : files) (doc : json) :
  compile repr_str (config_json fs) = Ok doc →
  main repr_str fs =
    ({| config_json := config_json fs; search_openapi_json := Some doc |}, None).
Proof. unfold main. by intros ->. Qed.

(** ** Unsupported field types *)

Lemma field_type_unsupported (props t : json) :
  getitem props "type" = Ok t → t ∉ supported_types →
  field_type props = Err (KeyError t) ∨
  field_type props = Err (TypeError Unhashable).
Proof.
  intros Ht Hu. unfold field_type. rewrite Ht. simpl.
  by apply es_type_lookup_unsupported.
Qed.

Lemma declares_type_props (type : json) (key : string) (t : json) :
  declares type key t → t ∉ supported_types → is_Err (type_props type).
Proof.
  intros (fields & props & Hm & Hin & Ht) Hu.
  rewrite type_props_eq, Hm. simpl. rewrite search_conf_props_eq.
  apply bind_is_Err, (mapM_result_is_Err _ _ (key, props)); [done|].
  unfold field_entry. apply bind_is_Err. simpl.
  destruct (field_type_unsupported _ _ Ht Hu) as [->| ->]; by eexists.
Qed.

Section unsupported.
Variable repr_str : string → string.

Lemma type_entry_is_Err (type : json) :
  is_Err (type_props type) → is_Err (type_entry repr_str type).
Proof.
  intros [e He]. unfold type_entry.
  destruct (getitem type "type") as [name|e']; [|by exists e'].
  simpl. rewrite He. by exists e.
Qed.

Lemma compile_is_Err (mu_search_config : json) (types : list json)
    (type : json) :
  types_of mu_search_config = Ok types →
  type ∈ types →
  is_Err (type_props type) →
  is_Err (compile repr_str mu_search_config).
Proof.
  intros Ht Hin Herr.
  destruct (mapM_result_is_Err (type_entry repr_str) types type Hin)
    as [e He]; [by apply type_entry_is_Err|].
  exists e. apply compile_Err. right. by exists types.
Qed.

Lemma es_type_lookup_hashable (t : json) (e : exn) :
  hashable t → es_type_lookup t = Err e → e = KeyError t.
Proof.
  destruct t as [| | | |s| |]; simpl; try done; try by intros _ [= <-].
  repeat case_decide; intros _ ?; by simplify_eq.
Qed.

Lemma es_type_lookup_unhashable (t : json) (e : exn) :
  ¬ hashable t → es_type_lookup t = Err e → e = TypeError Unhashable.
Proof.
  destruct t as [| | | |s| |]; simpl; try (by intros []); by intros _ [= <-].
Qed.

(** In a type of the required structure, the only exception is the
    [KeyError] of a declared type that the table does not have. *)
Lemma structured_type_entry (type : json) (e : exn) :
  structured_type type →
  type_entry repr_str type = Err e →
  ∃ key t,
    declares type key t ∧
    (t ∉ supported_types) ∧
    es_type_lookup t = Err e ∧
    e = KeyError t.
Proof.
  intros ([name Hname] & fields & Hm & Hfields). unfold type_entry.
  rewrite Hname. simpl. rewrite type_props_eq, Hm. simpl.
  rewrite search_conf_props_eq.
  intros [[He | (r & _ & [=])]%bind_Err | (? & _ & [=])]%bind_Err.
  apply mapM_result_Err_elem in He as ([key props] & Hin & He).
  rewrite Forall_forall in Hfields.
  destruct (Hfields _ Hin) as (t & Ht & Hh). simpl in Ht.
  unfold field_entry, field_type in He. cbn [snd] in He. rewrite Ht in He.
  apply bind_Err in He as [He | (? & _ & [=])].
  change (es_type_lookup t = Err e) in He.
  exists key, t. split; [by exists fields, props|]. split.
  - intros [ty Hty]%es_type_lookup_is_Ok. congruence.
  - split; [done | by eapply es_type_lookup_hashable].
Qed.

(** The run ends with what the table lookup raises for the first declared
    type that the script cannot map. *)
Lemma first_unmapped_compile (mu_search_config : json) (types : list json)
    (t : json) (e : exn) :
  types_of mu_search_config = Ok types →
  first_unmapped types t →
  es_type_lookup t = Err e →
  compile repr_str mu_search_config = Err e.
Proof.
  intros Htypes
    (pre & type & post & fpre & key & props & fpost &
     -> & Hpre & [name Hname] & Hm & Hfpre & Ht & _) He.
  apply compile_Err. right. exists (pre ++ type :: post). split; [done|].
  apply mapM_result_Err. exists pre, type, post. split; [done|]. split.
  { eapply Forall_impl; [exact Hpre|]. intros type'.
    apply type_entry_accepted. }
  unfold type_entry. rewrite Hname. simpl. rewrite type_props_eq, Hm. simpl.
  rewrite search_conf_props_eq. apply bind_Err. left. apply bind_Err. left.
  apply mapM_result_Err. exists fpre, (key, props), fpost.
  split; [done|]. split.
  { eapply Forall_impl; [exact Hfpre|]. intros kv.
    apply field_entry_accepted. }
  unfold field_entry, field_type. cbn [snd]. rewrite Ht. simpl.
  by rewrite He.
Qed.
End unsupported.

(** C1 does not hold as stated: a declared type that is a list makes the
    table lookup raise [TypeError], and a declared type outside the table
    that comes after an entry without the required structure is never
    looked up, the run ends with the exception of that entry. *)
Lemma type_mapping_totality_counterexample :
  (types_of unhashable_config = Ok [unhashable_type] ∧
   declares unhashable_type "price" (JList [JStr "float"]) ∧
   (JList [JStr "float"] ∉ supported_types) ∧
   compile repr_plain unhashable_config = Err (TypeError Unhashable) ∧
   main repr_plain (no_files unhashable_config) =
     (no_files unhashable_config, Some (TypeError Unhashable)) ∧
   ¬ UnsupportedFieldType [unhashable_type] (TypeError Unhashable)) ∧
  (types_of misplaced_config = Ok [JInt 5; float_type] ∧
   declares float_type "price" (JStr "float") ∧
   (JStr "float" ∉ supported_types) ∧
   compile repr_plain misplaced_config = Err (TypeError NotSubscriptable) ∧
   main repr_plain (no_files misplaced_config) =
     (no_files misplaced_config, Some (TypeError NotSubscriptable)) ∧
   ¬ UnsupportedFieldType [JInt 5; float_type] (TypeError NotSubscriptable)).
Proof.
  split.
  - split; [reflexivity|]. split.
    { eexists _, _. split; [reflexivity|].
      split; [apply list_elem_of_here | reflexivity]. }
    split.
    { intros H. repeat apply elem_of_cons in H as [H|H]; try discriminate.
      by apply elem_of_nil in H. }
    do 2 (split; [reflexivity|]).
    by intros (? & ? & ? & _ & _ & _ & _ & [=]).
  - split; [reflexivity|]. split.
    { eexists _, _. split; [reflexivity|].
      split; [apply list_elem_of_here | reflexivity]. }
    split.
    { intros H. repeat apply elem_of_cons in H as [H|H]; try discriminate.
      by apply elem_of_nil in H. }
    do 2 (split; [reflexivity|]).
    by intros (? & ? & ? & _ & _ & _ & _ & [=]).
Qed.

(** C1, amended.  The table maps [text], [keyword] and [date] to [string]
    and [integer] to [integer], and nothing else.  A configuration in
    which a type declares a field with any other type makes the run end
    with an exception and leaves the document file as it was.  The
    exception is that of the first step that raises.  It is the
    [KeyError] of the table lookup for a declared type that the table does
    not have when all types have the required structure, and more
    generally when the first thing the script cannot process is a field
    whose declared type can be hashed; when that type is a list or an
    object, the lookup raises [TypeError]. *)
Theorem type_mapping_totality (repr_str : string → string) :
  es_type_lookup (JStr "text") = Ok "string" ∧
  es_type_lookup (JStr "keyword") = Ok "string" ∧
  es_type_lookup (JStr "date") = Ok "string" ∧
  es_type_lookup (JStr "integer") = Ok "integer" ∧
  (∀ t, is_Ok (es_type_lookup t) ↔
        t ∈ [JStr "text"; JStr "keyword"; JStr "date"; JStr "integer"]) ∧
  (∀ fs types type key t,
     types_of (config_json fs) = Ok types →
     type ∈ types →
     declares type key t →
     t ∉ [JStr "text"; JStr "keyword"; JStr "date"; JStr "integer"] →
     ∃ e,
       compile repr_str (config_json fs) = Err e ∧
       main repr_str fs = (fs, Some e) ∧
       (Forall structured_type types → UnsupportedFieldType types e) ∧
       (∀ t0,
          first_unmapped types t0 →
          es_type_lookup t0 = Err e ∧
          (hashable t0 → e = KeyError t0 ∧ UnsupportedFieldType types e) ∧
          (¬ hashable t0 → e = TypeError Unhashable))).
Proof.
  do 4 (split; [done|]). split; [apply es_type_lookup_is_Ok|].
  intros fs types type key t Ht Hin Hdecl Hu.
  destruct (compile_is_Err repr_str _ _ _ Ht Hin) as [e He];
    [by eapply declares_type_props|].
  exists e. split; [done|]. split; [by apply main_Err|]. split.
  - intros Hstruct.
    pose proof He as [He' | (types' & Ht' & He')]%compile_Err; [congruence|].
    rewrite Ht in Ht'. injection Ht' as <-.
    apply mapM_result_Err_elem in He' as (type' & Hin' & He').
    rewrite Forall_forall in Hstruct.
    destruct (structured_type_entry _ _ _ (Hstruct _ Hin') He')
      as (key' & t' & Hd' & Hu' & Hl' & ->).
    by exists type', key', t'.
  - intros t0 Hfirst.
    assert (es_type_lookup t0 = Err e) as Hl.
    { pose proof Hfirst as (_ & _ & _ & _ & _ & _ & _ & _ & _ & _ & _ & _ & _ & Hu0).
      destruct (es_type_lookup t0) as [ty|e0] eqn:Hl0.
      - destruct Hu0. apply es_type_lookup_is_Ok. by exists ty.
      - pose proof (first_unmapped_compile repr_str _ _ _ _ Ht Hfirst Hl0).
        congruence. }
    split; [done|]. split.
    + intros Hh. pose proof (es_type_lookup_hashable _ _ Hh Hl) as ->.
      split; [done|].
      destruct Hfirst
        as (pre & type0 & post & fpre & key0 & props & fpost &
            -> & _ & _ & Hm & _ & Ht0 & Hu0).
      exists type0, key0, t0.
      split; [apply elem_of_app; right; apply list_elem_of_here|].
      split; [|done].
      exists (fpre ++ (key0, props) :: fpost), props. split; [done|].
      split; [|done]. apply elem_of_app. right. apply list_elem_of_here.
    + intros Hh. by eapply es_type_lookup_unhashable.
Qed.

Lemma type_mapping_totality_witness :
  compile repr_plain float_config = Err (KeyError (JStr "float")) ∧
  main repr_plain (no_files float_config) =
    (no_files float_config, Some (KeyError (JStr "float"))) ∧
  UnsupportedFieldType [person_type; float_type] (KeyError (JStr "float")).
Proof.
  destruct (type_mapping_totality repr_plain) as (_ & _ & _ & _ & _ & H).
  destruct (H (no_files float_config) [person_type; float_type] float_type
              "price" (JStr "float")) as (e & Hc & Hm & Hs & Hf).
  - reflexivity.
  - apply list_elem_of_further, list_elem_of_here.
  - exists [("price", JDict [("type", JStr "float")])],
      (JDict [("type", JStr "float")]).
    split; [reflexivity|]. split; [apply list_elem_of_here | reflexivity].
  - intros H'. repeat apply elem_of_cons in H' as [H'|H']; try discriminate.
    by apply elem_of_nil in H'.
  - destruct (Hf (JStr "float")) as (_ & Hh & _).
    { exists [person_type], float_type, [], [], "price",
        (JDict [("type", JStr "float")]), [].
      split; [reflexivity|]. split.
      { constructor; [|constructor]. split; [by eexists|].
        exists person_fields. split; [reflexivity|].
        constructor; [|constructor; [|constructor]].
        - exists (JStr "text"). split; [reflexivity | apply list_elem_of_here].
        - exists (JStr "integer"). split; [reflexivity|].
          do 3 apply list_elem_of_further. apply list_elem_of_here. }
      split; [by eexists|]. split; [reflexivity|].
      split; [constructor|]. split; [reflexivity|].
      intros H'. repeat apply elem_of_cons in H' as [H'|H']; try discriminate.
      by apply elem_of_nil in H'. }
    destruct (Hh I) as [-> _]. split; [exact Hc|]. split; [exact Hm|].
    apply Hs. constructor; [|constructor; [|constructor]].
    + split; [by eexists|]. exists person_fields. split; [reflexivity|].
      constructor; [|constructor; [|constructor]]; eexists; by split.
    + split; [by eexists|].
      exists [("price", JDict [("type", JStr "float")])].
      split; [reflexivity|]. constructor; [|constructor]. eexists. by split.
Defined.

(** ** Paths *)

Lemma string_length_app (s t : string) :
  String.length (s +:+ t) = String.length s + String.length t.
Proof. induction s as [|c s IH]; simpl; [done | by rewrite IH]. Qed.

Lemma string_app_inv_r (s1 s2 t : string) : s1 +:+ t = s2 +:+ t → s1 = s2.
Proof.
  revert s2. induction s1 as [|c1 s1 IH]; intros [|c2 s2]; simpl; [done| | |].
  - intros H%(f_equal String.length).
    rewrite !string_length_app in H. simpl in H. lia.
  - intros H%(f_equal String.length).
    rewrite !string_length_app in H. simpl in H. lia.
  - intros [= -> H]. f_equal. by apply IH.
Qed.

(** Types with different names, when the names are strings, have different
    paths. *)
Lemma search_path_str_inj (repr_str : string → string) (s1 s2 : string) :
  search_path repr_str (JStr s1) = search_path repr_str (JStr s2) → s1 = s2.
Proof.
  unfold search_path. simpl. intros [= H].
  apply (string_app_inv_r _ _ "/search"). exact H.
Qed.

Lemma length_dict_set {A} (d : dict A) k v :
  (length (dict_set d k v) ≤ S (length d))%nat.
Proof.
  induction d as [|[k0 v0] d IH]; simpl; [done|].
  case_decide; simpl; lia.
Qed.

Lemma length_dict_update {A} (d : dict A) kvs :
  (length (dict_update d kvs) ≤ length d + length kvs)%nat.
Proof.
  revert d. induction kvs as [|[k v] kvs IH]; intros d; simpl; [lia|].
  etrans; [apply (IH (dict_set d k v))|].
  pose proof (length_dict_set d k v). lia.
Qed.

Section paths.
Variable repr_str : string → string.

Lemma compile_paths (mu_search_config doc : json) (types : list json) :
  compile repr_str mu_search_config = Ok doc →
  types_of mu_search_config = Ok types →
  ∃ es,
    Forall2 (λ type e, type_entry repr_str type = Ok e) types es ∧
    doc = document (dict_update [] es).
Proof.
  intros (types' & es & Ht & He & ->)%compile_Ok Ht'.
  rewrite Ht in Ht'. injection Ht' as ->.
  exists es. split; [by apply type_entries_Ok | done].
Qed.

Lemma type_entries_paths (types : list json) (es : dict json) :
  Forall2 (λ type e, type_entry repr_str type = Ok e) types es →
  type_path repr_str <$> types = Ok <$> es.*1.
Proof.
  induction 1 as [|type [path item] types es He _ IH]; [done|].
  rewrite !fmap_cons. by rewrite (type_entry_path _ _ _ _ He), IH.
Qed.

(** The keys of [paths] are the paths of the types. *)
Lemma compile_path_keys (types : list json) (es : dict json) (path : string) :
  Forall2 (λ type e, type_entry repr_str type = Ok e) types es →
  path ∈ dict_keys (dict_update [] es) ↔
  ∃ type, type ∈ types ∧ type_path repr_str type = Ok path.
Proof.
  intros He. rewrite elem_of_dict_keys_update. split.
  - intros [H|H]; [by apply elem_of_nil in H|].
    apply (list_elem_of_fmap_2 Ok) in H.
    rewrite <-(type_entries_paths _ _ He) in H.
    apply list_elem_of_fmap in H as (type & ? & ?). by exists type.
  - intros (type & Hin & Hpath). right.
    apply (list_elem_of_fmap_2 (type_path repr_str)) in Hin.
    rewrite Hpath, (type_entries_paths _ _ He) in Hin.
    by apply list_elem_of_fmap in Hin as (path' & [= <-] & Hin).
Qed.
End paths.

(** ** All or nothing: the document *)

Lemma type_entry_assembled (repr_str : string → string) (type : json)
    (path : string) (item : json) :
  type_entry repr_str type = Ok (path, item) → assembled repr_str type item.
Proof.
  intros (name & props & Hname & Hprops & _ & ->)%type_entry_Ok.
  apply type_props_Ok in Hprops as (fields & r & Hm & Hr & ->).
  exists name, fields, r. do 2 (split; [done|]). split; [|done].
  apply field_schemas_Ok in Hr. eapply Forall2_impl; [exact Hr|].
  intros kv p (ty & Hty & ->). split; [done|]. by exists ty.
Qed.

(** C7 does not hold as stated: of two types with one name the document
    has one path item, the second type's, and none that is assembled from
    the first type. *)
Lemma compile_all_or_nothing_counterexample :
  compile repr_plain duplicate_config =
    Ok (document [("/person/search", person_item')]) ∧
  types_of duplicate_config = Ok [person_type; person_type'] ∧
  assembled repr_plain person_type person_item ∧
  (∀ path item,
     path_item_at (document [("/person/search", person_item')]) path =
       Some item →
     ¬ assembled repr_plain person_type item) ∧
  length [("/person/search", person_item')] ≠
    length [person_type; person_type'].
Proof.
  do 2 (split; [reflexivity|]). split; [|split; [|simpl; lia]].
  - exists (JStr "person"), person_fields,
      [("name", field_schema "string"); ("age", field_schema "integer")].
    do 2 (split; [reflexivity|]). split; [|reflexivity].
    repeat constructor; by eexists.
  - intros path item Hitem (name & fields & r & Hname & Hm & Hr & ->).
    rewrite document_paths in Hitem. simpl in Hitem.
    case_decide; [|done].
    apply (f_equal (λ o, o ≫= λ v, json_at v attributes_properties)) in Hitem.
    injection Hm as <-.
    apply Forall2_cons_inv_l in Hr as ([k1 o1] & r1 & [Hk1 _] & Hr & ->).
    apply Forall2_cons_inv_l in Hr as ([k2 o2] & r2 & [Hk2 _] & Hr & ->).
    apply Forall2_nil_inv_l in Hr as ->. simpl in Hk1, Hk2. subst k1 k2.
    unfold person_item' in Hitem. cbn [mbind option_bind] in Hitem.
    rewrite !path_item_attributes in Hitem. discriminate Hitem.
Qed.

(** C7, amended.  A run either ends with an exception and leaves the files
    as they were, however many types the loop had accepted before the one
    that raised, or it writes a document with the fixed [openapi] and
    [info] entries in which every entry of [paths] is the fully assembled
    path item of a type of the configuration, and the path of every type
    holds the fully assembled item of a type with that path: of the type
    itself when no later type has its path, so that there is one item per
    type when the paths are pairwise different. *)
Theorem compile_all_or_nothing (repr_str : string → string) (fs : files) :
  (∃ e,
     compile repr_str (config_json fs) = Err e ∧
     main repr_str fs = (fs, Some e) ∧
     (types_of (config_json fs) = Err e ∨
      ∃ pre type post,
        types_of (config_json fs) = Ok (pre ++ type :: post) ∧
        Forall accepted_type pre ∧
        ¬ accepted_type type ∧
        types_loop_body repr_str type [] = Err e)) ∨
  (∃ doc paths types,
     compile repr_str (config_json fs) = Ok doc ∧
     main repr_str fs =
       ({| config_json := config_json fs;
           search_openapi_json := Some doc |}, None) ∧
     types_of (config_json fs) = Ok types ∧
     Forall accepted_type types ∧
     doc = document paths ∧
     json_at doc [Key "openapi"] = Some (JStr "3.0.0") ∧
     json_at doc [Key "info"] =
       Some (JDict [ ("title", JStr "Mu-search api description");
                     ("version", JStr "Our version") ]) ∧
     json_at doc [Key "paths"] = Some (JDict paths) ∧
     (∀ path item,
        (path, item) ∈ paths →
        ∃ type,
          type ∈ types ∧
          type_path repr_str type = Ok path ∧
          assembled repr_str type item) ∧
     (∀ type,
        type ∈ types →
        ∃ path item type',
          type_path repr_str type = Ok path ∧
          path_item_at doc path = Some item ∧
          type' ∈ types ∧
          type_path repr_str type' = Ok path ∧
          assembled repr_str type' item) ∧
     (∀ pre type post,
        types = pre ++ type :: post →
        (∀ type', type' ∈ post →
           type_path repr_str type' ≠ type_path repr_str type) →
        ∃ path item,
          type_path repr_str type = Ok path ∧
          path_item_at doc path = Some item ∧
          assembled repr_str type item) ∧
     (NoDup (type_path repr_str <$> types) →
      length paths = length types ∧
      ∀ type,
        type ∈ types →
        ∃ path item,
          type_path repr_str type = Ok path ∧
          path_item_at doc path = Some item ∧
          assembled repr_str type item)).
Proof.
  destruct (compile repr_str (config_json fs)) as [doc|e] eqn:Hdoc.
  - right. pose proof Hdoc as (types & es & Ht & He & ->)%compile_Ok.
    exists (document (dict_update [] es)), (dict_update [] es), types.
    split; [done|]. split; [by apply main_Ok|]. split; [done|].
    split.
    { assert (is_Ok (type_entries repr_str types)) as Hok by by exists es.
      apply mapM_result_cases in Hok.
      eapply Forall_impl; [exact Hok|]. intros type.
      apply type_entry_accepted. }
    do 4 (split; [done|]).
    pose proof He as He'. apply type_entries_Ok in He.
    assert (∀ path item,
              (path, item) ∈ es →
              ∃ type,
                type ∈ types ∧
                type_path repr_str type = Ok path ∧
                assembled repr_str type item) as Hes.
    { intros path item [i Hi]%list_elem_of_lookup.
      destruct (Forall2_lookup_r _ _ _ _ _ He Hi) as (type & Hin & Hentry).
      exists type. split; [by apply list_elem_of_lookup_2 in Hin|].
      split; [by eapply type_entry_path | by eapply type_entry_assembled]. }
    assert (∀ pre type post,
              types = pre ++ type :: post →
              (∀ type', type' ∈ post →
                 type_path repr_str type' ≠ type_path repr_str type) →
              ∃ path item,
                type_path repr_str type = Ok path ∧
                path_item_at (document (dict_update [] es)) path = Some item ∧
                assembled repr_str type item) as Hlast.
    { intros pre type post -> Hpost.
      destruct (compile_item_last _ _ _ _ _ _ Hdoc Ht Hpost)
        as (path & item & Hentry & Hitem).
      exists path, item. split; [by eapply type_entry_path|].
      split; [done | by eapply type_entry_assembled]. }
    split; [|split; [|split; [done|]]].
    + intros path item [Hin|Hin]%elem_of_dict_update; [by eapply Hes|].
      by apply elem_of_nil in Hin.
    + intros type [i Hi]%list_elem_of_lookup.
      destruct (Forall2_lookup_l _ _ _ _ _ He Hi) as ([path item0] & Hi' & Hentry).
      assert (path ∈ dict_keys (dict_update [] es)) as Hkey.
      { apply elem_of_dict_keys_update. right.
        apply list_elem_of_fmap. exists (path, item0). split; [done|].
        by apply list_elem_of_lookup_2 in Hi'. }
      apply dict_get_is_Some in Hkey as [item Hitem].
      assert ((path, item) ∈ es) as Hin.
      { apply dict_get_update_elem in Hitem as [Hin|Hin]; done. }
      destruct (Hes _ _ Hin) as (type' & Hin' & Hpath' & Ha).
      exists path, item, type'. split; [by eapply type_entry_path|].
      rewrite document_paths. by repeat split.
    + intros Hnd. split.
      * rewrite (type_entries_paths _ _ _ He) in Hnd.
        apply NoDup_fmap_1 in Hnd. rewrite dict_update_nil by done.
        symmetry. by eapply Forall2_length.
      * intros type (pre & post & ->)%list_elem_of_split.
        apply (Hlast pre type post); [done|].
        rewrite fmap_app, fmap_cons in Hnd.
        apply NoDup_app in Hnd as (_ & _ & [Hnin _]%NoDup_cons).
        intros type' Hin Heq. apply Hnin. rewrite <-Heq.
        by apply list_elem_of_fmap_2.
  - left. exists e. split; [done|]. split; [by apply main_Err|].
    apply compile_Err in Hdoc as [He | (types & Ht & He)]; [by left|]. right.
    apply mapM_result_Err in He as (pre & type & post & -> & Hpre & He).
    exists pre, type, post. split; [done|]. split; [|split].
    + eapply Forall_impl; [exact Hpre|]. intros type'.
      apply type_entry_accepted.
    + intros [entry Hentry]%(proj2 (type_entry_accepted repr_str type)).
      congruence.
    + by rewrite types_loop_body_eq, He.
Qed.

Lemma compile_all_or_nothing_witness :
  ∃ paths,
    compile repr_plain two_types_config = Ok (document paths) ∧
    length paths = length [person_type; event_type] ∧
    ∀ type,
      type ∈ [person_type; event_type] →
      ∃ path item,
        type_path repr_plain type = Ok path ∧
        path_item_at (document paths) path = Some item ∧
        assembled repr_plain type item.
Proof.
  destruct (compile_all_or_nothing repr_plain (no_files two_types_config))
    as [(e & He & _) |
        (doc & paths & types & Hdoc & _ & Ht & _ & -> & _ & _ & _ & _ & _ & _ & H)];
    [discriminate He|].
  injection Ht as <-. exists paths. split; [exact Hdoc|]. apply H.
  apply NoDup_cons_2; [|apply NoDup_singleton].
  intros Hin%list_elem_of_singleton. discriminate Hin.
Defined.

(** C2 does not hold as stated: two types with one name give one entry of
    [paths], the second type's path item, so the entries are fewer than
    the types. *)
Lemma completeness_counterexample :
  compile repr_plain duplicate_config =
    Ok (document [("/person/search", person_item')]) ∧
  types_of duplicate_config = Ok [person_type; person_type'] ∧
  length [("/person/search", person_item')] ≠
    length [person_type; person_type'].
Proof. split; [reflexivity|]. split; [reflexivity|]. simpl. lia. Qed.

(** C2, amended.  In a document that [compile] returns no two entries of
    [paths] have the same path, the path of every type is a key of [paths],
    and there are at most as many entries as types: exactly as many when
    the types have pairwise different paths, which they have when their
    names are pairwise different strings. *)
Theorem completeness (repr_str : string → string)
    (mu_search_config doc : json) (types : list json) :
  compile repr_str mu_search_config = Ok doc →
  types_of mu_search_config = Ok types →
  ∃ paths,
    json_at doc [Key "paths"] = Some (JDict paths) ∧
    NoDup (dict_keys paths) ∧
    (∀ type, type ∈ types →
       ∃ path, type_path repr_str type = Ok path ∧ path ∈ dict_keys paths) ∧
    (length paths ≤ length types)%nat ∧
    (NoDup (type_path repr_str <$> types) → length paths = length types) ∧
    (∀ names,
       Forall2 (λ type s, getitem type "type" = Ok (JStr s)) types names →
       NoDup names →
       length paths = length types).
Proof.
  intros Hdoc Htypes.
  destruct (compile_paths _ _ _ _ Hdoc Htypes) as (es & He & ->).
  exists (dict_update [] es). split; [done|].
  split; [apply NoDup_dict_update, NoDup_nil_2|].
  assert (NoDup (type_path repr_str <$> types) →
          length (dict_update [] es) = length types) as Hlen.
  { rewrite (type_entries_paths _ _ _ He). intros Hnd%NoDup_fmap_1.
    rewrite dict_update_nil by done. symmetry. by eapply Forall2_length. }
  split; [|split; [|split; [done|]]].
  - intros type Hin.
    apply list_elem_of_lookup in Hin as [i Hi].
    destruct (Forall2_lookup_l _ _ _ _ _ He Hi) as ([path item] & _ & Hentry).
    exists path. split; [by eapply type_entry_path|].
    apply (compile_path_keys _ _ _ _ He). exists type.
    split; [by eapply list_elem_of_lookup_2 | by eapply type_entry_path].
  - pose proof (length_dict_update (@nil (string * json)) es) as Hle.
    rewrite (Forall2_length _ _ _ He). simpl in Hle. done.
  - intros names Hnames Hnd. apply Hlen.
    assert (type_path repr_str <$> types =
            (λ s, Ok (search_path repr_str (JStr s))) <$> names) as ->.
    { clear -Hnames. induction Hnames as [|type s types names Hs _ IH]; [done|].
      rewrite !fmap_cons, IH. unfold type_path at 1. by rewrite Hs. }
    apply NoDup_fmap_2; [|done].
    intros s1 s2 H. apply (search_path_str_inj repr_str). congruence.
Qed.

Lemma completeness_witness :
  ∃ paths,
    json_at person_doc [Key "paths"] = Some (JDict paths) ∧
    NoDup (dict_keys paths) ∧
    (∀ type, type ∈ [person_type] →
       ∃ path, type_path repr_plain type = Ok path ∧ path ∈ dict_keys paths) ∧
    (length paths ≤ length [person_type])%nat ∧
    (NoDup (type_path repr_plain <$> [person_type]) →
       length paths = length [person_type]) ∧
    (∀ names,
       Forall2 (λ type s, getitem type "type" = Ok (JStr s)) [person_type] names →
       NoDup names →
       length paths = length [person_type]).
Proof.
  apply (completeness repr_plain person_config person_doc [person_type]);
    reflexivity.
Defined.



(** ** Configurations without the required structure *)

Lemma field_mapping_Err (type : json) (e : exn) :
  field_mapping type = Err e → type_props type = Err e.
Proof. rewrite type_props_eq. by intros ->. Qed.

Lemma field_mapping_missing (d : dict json) :
  (dict_get d "mappings" = None →
   field_mapping (JDict d) = Err (KeyError (JStr "mappings"))) ∧
  (∀ m, dict_get d "mappings" = Some (JDict m) →
        dict_get m "properties" = None →
        field_mapping (JDict d) = Err (KeyError (JStr "properties"))).
Proof.
  unfold field_mapping, getitem. split.
  - by intros ->.
  - intros m -> Hm. simpl. by rewrite Hm.
Qed.

(** C8 does not hold as stated: a [types] entry that is an empty object is
    not a sequence, yet the run writes a document, without paths. *)
Lemma malformed_configuration_counterexample :
  (∀ types, getitem empty_object_config "types" ≠ Ok (JList types)) ∧
  compile repr_plain empty_object_config = Ok (document []) ∧
  main repr_plain (no_files empty_object_config) =
    ({| config_json := empty_object_config;
        search_openapi_json := Some (document []) |}, None).
Proof. split; [done|]. split; reflexivity. Qed.

Lemma iter_not_list (v : json) :
  (∀ types, v ≠ JList types) →
  v = JDict [] ∨ v = JStr "" ∨
  iter v = Err (TypeError NotIterable) ∨
  ∃ s rest, iter v = Ok (JStr s :: rest).
Proof.
  intros Hv. destruct v as [| | | |s|xs|d]; simpl; try tauto.
  - destruct s as [|c s]; [tauto|]. do 3 right. by eexists _, _.
  - by destruct (Hv xs).
  - destruct d as [|[k x] d]; [tauto|]. do 3 right. by eexists _, _.
Qed.

(** C8, amended.  A configuration on which [mu_search_config["types"]]
    raises makes the run end with that exception, which is
    [KeyError("types")] for an object without the key.  A configuration
    whose [types] is not a list makes the run end with [TypeError], unless
    it is an empty object or an empty string: then the loop runs over
    nothing and a document without paths is written.  A configuration
    with a type on which [type["mappings"]["properties"]] raises, or gives
    a value that is not an object, makes the run end with an exception,
    which is that of the lookup when the types before it give their path
    items and the type has a name, and it is [KeyError("mappings")] or
    [KeyError("properties")] when the key is missing.  Whenever the run
    ends with an exception the document file stays as it was. *)
Theorem malformed_configuration (repr_str : string → string) (fs : files) :
  (∀ e,
     getitem (config_json fs) "types" = Err e →
     compile repr_str (config_json fs) = Err e ∧
     main repr_str fs = (fs, Some e)) ∧
  (∀ d,
     config_json fs = JDict d →
     dict_get d "types" = None →
     main repr_str fs = (fs, Some (KeyError (JStr "types")))) ∧
  (∀ v,
     getitem (config_json fs) "types" = Ok v →
     (∀ types, v ≠ JList types) →
     (v = JDict [] ∨ v = JStr "" →
      compile repr_str (config_json fs) = Ok (document []) ∧
      main repr_str fs =
        ({| config_json := config_json fs;
            search_openapi_json := Some (document []) |}, None)) ∧
     (v ≠ JDict [] → v ≠ JStr "" →
      ∃ why,
        compile repr_str (config_json fs) = Err (TypeError why) ∧
        main repr_str fs = (fs, Some (TypeError why)) ∧
        (why = NotIterable ∧ iter v = Err (TypeError NotIterable) ∨
         why = BadIndex ∧ ∃ s rest, iter v = Ok (JStr s :: rest)))) ∧
  (∀ types type,
     types_of (config_json fs) = Ok types →
     type ∈ types →
     is_Err (field_mapping type) ∨
       (∀ fields, field_mapping type ≠ Ok (JDict fields)) →
     ∃ e,
       compile repr_str (config_json fs) = Err e ∧
       main repr_str fs = (fs, Some e)) ∧
  (∀ pre type post e,
     types_of (config_json fs) = Ok (pre ++ type :: post) →
     Forall (λ type', is_Ok (types_loop_body repr_str type' [])) pre →
     is_Ok (getitem type "type") →
     field_mapping type = Err e →
     compile repr_str (config_json fs) = Err e ∧
     main repr_str fs = (fs, Some e)) ∧
  (∀ d,
     (dict_get d "mappings" = None →
      field_mapping (JDict d) = Err (KeyError (JStr "mappings"))) ∧
     (∀ m, dict_get d "mappings" = Some (JDict m) →
           dict_get m "properties" = None →
           field_mapping (JDict d) = Err (KeyError (JStr "properties")))).
Proof.
  assert (∀ e, getitem (config_json fs) "types" = Err e →
               compile repr_str (config_json fs) = Err e) as Htypes.
  { intros e He. apply compile_Err. left. unfold types_of. by rewrite He. }
  split; [|split; [|split; [|split; [|split]]]].
  - intros e He. split; [by apply Htypes | by apply main_Err, Htypes].
  - intros d Hd Hnone. apply main_Err, Htypes. rewrite Hd. simpl.
    by rewrite Hnone.
  - intros v Hv Hlist. split.
    + intros Hempty.
      assert (compile repr_str (config_json fs) = Ok (document [])) as Hc.
      { apply compile_Ok. exists [], []. unfold types_of. rewrite Hv.
        by destruct Hempty as [-> | ->]. }
      split; [done | by apply main_Ok].
    + intros Hd Hs.
      destruct (iter_not_list v Hlist) as [? | [? | [Hit | (s & rest & Hit)]]];
        [done | done | |].
      * exists NotIterable.
        assert (compile repr_str (config_json fs) =
                Err (TypeError NotIterable)) as Hc.
        { apply compile_Err. left. unfold types_of. by rewrite Hv. }
        split; [done|]. split; [by apply main_Err | by left].
      * exists BadIndex.
        assert (compile repr_str (config_json fs) =
                Err (TypeError BadIndex)) as Hc.
        { apply compile_Err. right. exists (JStr s :: rest). split.
          - unfold types_of. by rewrite Hv.
          - apply mapM_result_Err. by exists [], (JStr s), rest. }
        split; [done|]. split; [by apply main_Err|]. right.
        split; [done|]. by exists s, rest.
  - intros types type Ht Hin Hbad.
    destruct (compile_is_Err repr_str _ _ _ Ht Hin) as [e' He'].
    { destruct Hbad as [[e He] | Hnot].
      - exists e. by apply field_mapping_Err.
      - destruct (type_props type) as [props|e] eqn:Hprops; [|by exists e].
        apply type_props_Ok in Hprops as (fields & _ & Hm & _).
        by destruct (Hnot fields). }
    exists e'. split; [done | by apply main_Err].
  - intros pre type post e Ht Hpre [name Hname] He.
    assert (compile repr_str (config_json fs) = Err e) as Hc.
    { apply compile_Err. right. exists (pre ++ type :: post). split; [done|].
      apply mapM_result_Err. exists pre, type, post. split; [done|]. split.
      - eapply Forall_impl; [exact Hpre|]. intros type' [paths Hp].
        rewrite types_loop_body_eq in Hp.
        apply bind_Ok in Hp as (entry & Hentry & _). by exists entry.
      - unfold type_entry. rewrite Hname. simpl.
        by rewrite (field_mapping_Err _ _ He). }
    split; [done | by apply main_Err].
  - apply field_mapping_missing.
Qed.

Lemma malformed_configuration_witness :
  main repr_plain (no_files no_types_config) =
    (no_files no_types_config, Some (KeyError (JStr "types"))) ∧
  (∃ why,
     compile repr_plain number_types_config = Err (TypeError why) ∧
     main repr_plain (no_files number_types_config) =
       (no_files number_types_config, Some (TypeError why)) ∧
     (why = NotIterable ∧ iter (JInt 5) = Err (TypeError NotIterable) ∨
      why = BadIndex ∧ ∃ s rest, iter (JInt 5) = Ok (JStr s :: rest))) ∧
  (∃ why,
     compile repr_plain object_types_config = Err (TypeError why) ∧
     main repr_plain (no_files object_types_config) =
       (no_files object_types_config, Some (TypeError why)) ∧
     (why = NotIterable ∧
        iter (JDict [("person", person_type)]) = Err (TypeError NotIterable) ∨
      why = BadIndex ∧
        ∃ s rest, iter (JDict [("person", person_type)]) = Ok (JStr s :: rest))) ∧
  (∃ e,
     compile repr_plain bare_type_config = Err e ∧
     main repr_plain (no_files bare_type_config) =
       (no_files bare_type_config, Some e)) ∧
  compile repr_plain bare_type_config = Err (KeyError (JStr "mappings")) ∧
  main repr_plain (no_files bare_type_config) =
    (no_files bare_type_config, Some (KeyError (JStr "mappings"))).
Proof.
  split; [|split; [|split; [|split]]].
  - destruct (malformed_configuration repr_plain (no_files no_types_config))
      as (_ & H & _).
    apply (H [("batch_size", JInt 128)]); reflexivity.
  - destruct (malformed_configuration repr_plain (no_files number_types_config))
      as (_ & _ & H & _).
    destruct (H (JInt 5)) as [_ H']; [reflexivity | discriminate|].
    apply H'; discriminate.
  - destruct (malformed_configuration repr_plain (no_files object_types_config))
      as (_ & _ & H & _).
    destruct (H (JDict [("person", person_type)])) as [_ H'];
      [reflexivity | discriminate|].
    apply H'; discriminate.
  - destruct (malformed_configuration repr_plain (no_files bare_type_config))
      as (_ & _ & _ & H & _).
    apply (H [person_type; bare_type] bare_type).
    + reflexivity.
    + apply list_elem_of_further, list_elem_of_here.
    + left. eexists. reflexivity.
  - destruct (malformed_configuration repr_plain (no_files bare_type_config))
      as (_ & _ & _ & _ & H & _).
    apply (H [person_type] bare_type []).
    + reflexivity.
    + constructor; [|constructor]. eexists. reflexivity.
    + eexists. reflexivity.
    + reflexivity.
Defined.

(** ** The store: what line 134 reaches *)

Lemma dict_set_fmap {A B} (f : A → B) (d : dict A) k v :
  prod_map id f <$> dict_set d k v = dict_set (prod_map id f <$> d) k (f v).
Proof.
  induction d as [|[k0 v0] d IH]; [done|].
  rewrite fmap_cons. simpl. case_decide; [done|].
  rewrite fmap_cons. by f_equal.
Qed.

Lemma dict_update_fmap {A B} (f : A → B) (d : dict A) kvs :
  prod_map id f <$> dict_update d kvs =
  dict_update (prod_map id f <$> d) (prod_map id f <$> kvs).
Proof.
  revert d. induction kvs as [|[k v] kvs IH]; intros d; [done|].
  rewrite fmap_cons, !dict_update_cons, IH. by rewrite dict_set_fmap.
Qed.

Module StoreFacts.
Lemma read_deref (σ : Store.store) (d : dict Store.addr) :
  Forall (λ kv, kv.2 < length σ)%nat d →
  Store.read σ d = Some (prod_map id (Store.deref σ) <$> d).
Proof.
  intros Hd. apply mapM_Some.
  induction Hd as [|[k a] d Ha _ IH]; [constructor|].
  rewrite fmap_cons. constructor; [|done]. simpl in *.
  apply lookup_lt_is_Some_2 in Ha as [o Ho].
  unfold Store.deref. by rewrite Ho.
Qed.

Lemma Forall_dict_set {A} (P : string * A → Prop) (d : dict A) k v :
  Forall P d → (∀ k', P (k', v)) → Forall P (dict_set d k v).
Proof.
  intros Hd Hv. induction Hd as [|[k0 v0] d H0 Hd IH]; simpl.
  - constructor; [apply Hv | constructor].
  - case_decide; constructor; [apply Hv | done | done | done].
Qed.

(** A call of [search_conf_props_to_openapi_props] adds one object per
    field to the Store.store, changes none, and returns the addresses of
    objects it added. *)
Lemma openapi_props_loop_spec (its : dict json) (acc : dict Store.addr) (σ : Store.store) :
  Store.openapi_props_loop its acc σ =
  (r ← field_schemas its;
   Ok (dict_update acc (zip r.*1 (seq (length σ) (length r))), σ ++ r.*2)).
Proof.
  revert acc σ. unfold field_schemas.
  induction its as [|[key props] its IH]; intros acc σ.
  - simpl. by rewrite app_nil_r.
  - rewrite mapM_result_cons. simpl. unfold field_entry, field_type. simpl.
    destruct (getitem props "type") as [t|e]; [|done]. simpl.
    destruct (es_type_lookup t) as [ty|e]; [|done]. simpl.
    rewrite IH. destruct (mapM _ its) as [r|e]; [|done]. simpl.
    rewrite length_app, Nat.add_1_r, <-app_assoc. done.
Qed.

Lemma Forall_dict_update {A} (Q : A → Prop) (d : dict A) kvs :
  Forall (λ kv, Q kv.2) d → Forall (λ kv, Q kv.2) kvs →
  Forall (λ kv, Q kv.2) (dict_update d kvs).
Proof.
  intros Hd Hkvs. revert d Hd.
  induction Hkvs as [|[k v] kvs Hv _ IH]; intros d Hd; [done|].
  rewrite dict_update_cons. apply IH.
  by apply (Forall_dict_set (λ kv, Q kv.2)).
Qed.

Lemma deref_seq (σ objs rest : Store.store) :
  Store.deref (σ ++ objs ++ rest) <$> seq (length σ) (length objs) = objs.
Proof.
  revert σ. induction objs as [|o objs IH]; intros σ; [done|].
  simpl. f_equal.
  - unfold Store.deref. by rewrite lookup_app_r, Nat.sub_diag.
  - specialize (IH (σ ++ [o])).
    rewrite length_app, Nat.add_1_r, <-app_assoc in IH. done.
Qed.

(** What a call returns, Store.read in a Store.store that has the objects of the call
    unchanged: the property dictionary of the value model. *)
Lemma read_new_objects (σ rest : Store.store) (r : dict (dict json)) :
  prod_map id (Store.deref (σ ++ r.*2 ++ rest)) <$>
    dict_update [] (zip r.*1 (seq (length σ) (length r))) =
  dict_update [] r.
Proof.
  rewrite dict_update_fmap. f_equal.
  rewrite prod_map_zip, list_fmap_id.
  rewrite <-(length_fmap snd r), deref_seq. apply zip_fst_snd.
Qed.

Lemma new_addresses (n : nat) (r : dict (dict json)) :
  Forall (λ kv, n ≤ kv.2 < n + length r)%nat
    (dict_update [] (zip r.*1 (seq n (length r)))).
Proof.
  apply (Forall_dict_update (λ a, n ≤ a < n + length r)%nat); [done|].
  apply Forall_forall. intros [k a] Hin%(list_elem_of_fmap_2 snd).
  rewrite snd_zip in Hin by (by rewrite length_seq, length_fmap).
  apply elem_of_seq in Hin. simpl in *. lia.
Qed.

(** Lines 133-134 change the objects that [sort_props] holds, and only
    those. *)
Lemma sort_enum_loop_lookup (its : dict Store.addr) (σ : Store.store) (a : Store.addr) :
  Store.sort_enum_loop its σ !! a =
  if decide (a ∈ its.*2)
  then (λ o, dict_set o "enum" (JList [JStr "asc"; JStr "desc"])) <$> σ !! a
  else σ !! a.
Proof.
  revert σ. induction its as [|[k v] its IH]; intros σ; [done|].
  change (Store.sort_enum_loop ((k, v) :: its) σ)
    with (Store.sort_enum_loop its
            (Store.setitem σ v "enum" (JList [JStr "asc"; JStr "desc"]))).
  rewrite IH, fmap_cons. cbn [snd]. unfold Store.setitem.
  rewrite list_lookup_alter.
  destruct (decide (v = a)) as [->|Hne];
    destruct (decide (a ∈ its.*2)) as [Hin|Hnin].
  - rewrite decide_True by apply list_elem_of_here.
    rewrite <-option_fmap_compose.
    apply option_fmap_ext. intros o. simpl. apply dict_set_set.
  - by rewrite decide_True by apply list_elem_of_here.
  - by rewrite decide_True by by apply list_elem_of_further.
  - rewrite decide_False; [done|].
    intros [?|?]%elem_of_cons; [by subst | done].
Qed.

Lemma length_sort_enum_loop (its : dict Store.addr) (σ : Store.store) :
  length (Store.sort_enum_loop its σ) = length σ.
Proof.
  revert σ. induction its as [|[k v] its IH]; intros σ; [done|].
  simpl. rewrite IH. apply length_alter.
Qed.

Lemma read_frame (σ σ' : Store.store) (d : dict Store.addr) (ps : dict (dict json)) :
  (∀ a o, σ !! a = Some o → σ' !! a = Some o) →
  Store.read σ d = Some ps → Store.read σ' d = Some ps.
Proof.
  intros Hframe. unfold Store.read. rewrite !mapM_Some.
  intros H. eapply Forall2_impl; [exact H|].
  intros [k a] [k' o]. simpl.
  destruct (σ !! a) as [o'|] eqn:Ho; [|done].
  by rewrite (Hframe _ _ Ho).
Qed.

(** The assignments leave the value of a dictionary that shares no
    object with [sort_props]. *)
Lemma read_sort_enum_loop_other (σ : Store.store) (d its : dict Store.addr) :
  (∀ kv, kv ∈ d → kv.2 ∉ its.*2) →
  Store.read (Store.sort_enum_loop its σ) d = Store.read σ d.
Proof.
  intros Hd. unfold Store.read. induction d as [|[k a] d IH]; [done|].
  simpl. rewrite IH.
  - rewrite sort_enum_loop_lookup, decide_False; [done|].
    apply (Hd (k, a)), list_elem_of_here.
  - intros kv Hkv. by apply Hd, list_elem_of_further.
Qed.

(** They add the enum to every object of [sort_props]. *)
Lemma read_sort_enum_loop_part (σ : Store.store) (d its : dict Store.addr) :
  (∀ kv, kv ∈ d → kv.2 ∈ its.*2) →
  Store.read (Store.sort_enum_loop its σ) d =
  sort_enum_loop <$> Store.read σ d.
Proof.
  intros Hd. unfold Store.read. induction d as [|[k a] d IH]; [done|].
  simpl. rewrite IH.
  - rewrite sort_enum_loop_lookup, decide_True
      by apply (Hd (k, a)), list_elem_of_here.
    destruct (σ !! a) as [o|]; [|done]. simpl. clear IH.
    by destruct (mapM _ d).
  - intros kv Hkv. by apply Hd, list_elem_of_further.
Qed.

Lemma read_sort_enum_loop_self (σ : Store.store) (its : dict Store.addr) :
  Store.read (Store.sort_enum_loop its σ) its =
  sort_enum_loop <$> Store.read σ its.
Proof.
  apply read_sort_enum_loop_part. intros kv Hkv.
  by apply list_elem_of_fmap_2.
Qed.

Lemma type_props_spec (type : json) (σ : Store.store)
    (fields : dict json) (r : dict (dict json)) :
  field_mapping type = Ok (JDict fields) →
  field_schemas fields = Ok r →
  Store.type_props type σ =
  Ok (dict_update [] (zip r.*1 (seq (length σ) (length r))), σ ++ r.*2).
Proof.
  unfold field_mapping, Store.type_props. intros Hm Hr.
  destruct (getitem type "mappings") as [mappings|]; [|done].
  simpl in *. rewrite Hm. simpl.
  unfold Store.search_conf_props_to_openapi_props. simpl.
  by rewrite openapi_props_loop_spec, Hr.
Qed.

(** What a call returns, read in a store that still has its objects. *)
Lemma read_new (σ rest : Store.store) (r : dict (dict json)) :
  Store.read (σ ++ r.*2 ++ rest)
    (dict_update [] (zip r.*1 (seq (length σ) (length r)))) =
  Some (dict_update [] r).
Proof.
  rewrite read_deref.
  - by rewrite read_new_objects.
  - eapply Forall_impl; [apply new_addresses|]. intros [k a]. simpl.
    rewrite !length_app, length_fmap. lia.
Qed.
End StoreFacts.

Lemma new_addresses_disjoint (n n' : nat) (r r' : dict (dict json)) :
  (n + length r ≤ n')%nat →
  ∀ kv, kv ∈ dict_update [] (zip r.*1 (seq n (length r))) →
        kv.2 ∉ (dict_update [] (zip r'.*1 (seq n' (length r')))).*2.
Proof.
  intros Hle kv Hkv Hin.
  pose proof (StoreFacts.new_addresses n r) as H. rewrite Forall_forall in H.
  apply H in Hkv. apply list_elem_of_fmap in Hin as (kv' & Heq & Hkv').
  pose proof (StoreFacts.new_addresses n' r') as H'.
  rewrite Forall_forall in H'. apply H' in Hkv'. lia.
Qed.

(** C9.  In one turn of the loop, the property dictionaries of the
    response attributes, of the filter parameter and of the sort parameter
    are three sets of objects.  When line 132 has returned, all three read
    as [{"type": ty}] per field, [ty] the mapped type of the field.  The
    assignments of lines 133-134 change the objects of the sort dictionary
    only: at the end of the turn the attributes and the filter dictionary
    read as before, field by field equal and without an [enum] key, every
    object that was in the store before the turn is as it was, and the
    path item that the loop builds holds these values. *)
Theorem sort_enum_frame (repr_str : string → string) (type : json)
    (path : string) (item : json) (σ : Store.store) :
  types_loop_body repr_str type [] = Ok [(path, item)] →
  ∃ t props,
    Store.loop_turn type σ = Ok t ∧
    type_props type = Ok props ∧
    json_at item attributes_properties = Some (props_json props) ∧
    json_at item filter_properties = Some (props_json props) ∧
    json_at item sort_properties = Some (props_json (sort_enum_loop props)) ∧
    Store.read (Store.built t) (Store.attributes t) = Some props ∧
    Store.read (Store.built t) (Store.filter_props t) = Some props ∧
    Store.read (Store.built t) (Store.sort_props t) = Some props ∧
    Store.read (Store.final t) (Store.attributes t) = Some props ∧
    Store.read (Store.final t) (Store.filter_props t) = Some props ∧
    Store.read (Store.final t) (Store.sort_props t) =
      Some (sort_enum_loop props) ∧
    (∀ key o,
       (key, o) ∈ props →
       dict_get o "enum" = None ∧
       ∃ fields p ty,
         field_mapping type = Ok (JDict fields) ∧
         (key, p) ∈ fields ∧
         field_type p = Ok ty ∧
         o = [("type", JStr ty)]) ∧
    (∀ a o, σ !! a = Some o → Store.final t !! a = Some o).
Proof.
  rewrite types_loop_body_eq.
  intros ([path' item'] & Hentry & [= -> ->])%bind_Ok.
  apply type_entry_Ok in Hentry as (name & props & _ & Hprops & _ & ->).
  pose proof Hprops as (fields & r & Hm & Hr & Hpr)%type_props_Ok.
  set (objs := r.*2).
  set (d1 := dict_update [] (zip r.*1 (seq (length σ) (length r)))).
  set (d2 := dict_update [] (zip r.*1 (seq (length (σ ++ objs)) (length r)))).
  set (d3 := dict_update []
               (zip r.*1 (seq (length ((σ ++ objs) ++ objs)) (length r)))).
  set (σ3 := ((σ ++ objs) ++ objs) ++ objs).
  assert (length objs = length r) as Hobjs by apply length_fmap.
  assert (Store.loop_turn type σ =
          Ok (Store.Turn d1 d2 d3 σ3 (Store.sort_enum_loop d3 σ3))) as Hturn.
  { subst objs d1 d2 d3 σ3. unfold Store.loop_turn.
    rewrite (StoreFacts.type_props_spec _ σ _ _ Hm Hr). simpl.
    rewrite (StoreFacts.type_props_spec _ (σ ++ r.*2) _ _ Hm Hr). simpl.
    by rewrite (StoreFacts.type_props_spec _ ((σ ++ r.*2) ++ r.*2) _ _ Hm Hr). }
  assert (Store.read σ3 d1 = Some props) as H1.
  { subst σ3 props. rewrite <-!app_assoc. apply StoreFacts.read_new. }
  assert (Store.read σ3 d2 = Some props) as H2.
  { subst σ3 props. rewrite <-(app_assoc (σ ++ objs)).
    apply StoreFacts.read_new. }
  assert (Store.read σ3 d3 = Some props) as H3.
  { subst σ3 props. rewrite <-(app_nil_r objs) at 3.
    apply StoreFacts.read_new. }
  eexists _, props. split; [exact Hturn|]. simpl.
  do 7 (split; [done|]). split; [|split; [|split; [|split]]].
  - rewrite StoreFacts.read_sort_enum_loop_other; [done|].
    apply new_addresses_disjoint. rewrite !length_app. lia.
  - rewrite StoreFacts.read_sort_enum_loop_other; [done|].
    apply new_addresses_disjoint. rewrite !length_app. lia.
  - by rewrite StoreFacts.read_sort_enum_loop_self, H3.
  - intros key o Hin.
    destruct (type_props_values _ _ _ _ Hprops Hin)
      as (fields' & p & ty & ? & ? & ? & ->).
    split; [done|]. by exists fields', p, ty.
  - intros a o Ha. rewrite StoreFacts.sort_enum_loop_lookup.
    pose proof (lookup_lt_Some _ _ _ Ha) as Hlt.
    rewrite decide_False.
    + subst σ3. by rewrite !lookup_app_l by (rewrite ?length_app; lia).
    + intros (kv & Heq & Hkv)%list_elem_of_fmap.
      pose proof (StoreFacts.new_addresses
                    (length ((σ ++ objs) ++ objs)) r) as H.
      rewrite Forall_forall in H. apply H in Hkv.
      rewrite !length_app in Hkv. lia.
Qed.

Lemma sort_enum_frame_witness :
  ∃ t props,
    Store.loop_turn person_type [field_schema "string"] = Ok t ∧
    type_props person_type = Ok props ∧
    json_at person_item attributes_properties = Some (props_json props) ∧
    json_at person_item filter_properties = Some (props_json props) ∧
    json_at person_item sort_properties =
      Some (props_json (sort_enum_loop props)) ∧
    Store.read (Store.built t) (Store.attributes t) = Some props ∧
    Store.read (Store.built t) (Store.filter_props t) = Some props ∧
    Store.read (Store.built t) (Store.sort_props t) = Some props ∧
    Store.read (Store.final t) (Store.attributes t) = Some props ∧
    Store.read (Store.final t) (Store.filter_props t) = Some props ∧
    Store.read (Store.final t) (Store.sort_props t) =
      Some (sort_enum_loop props) ∧
    (∀ key o,
       (key, o) ∈ props →
       dict_get o "enum" = None ∧
       ∃ fields p ty,
         field_mapping person_type = Ok (JDict fields) ∧
         (key, p) ∈ fields ∧
         field_type p = Ok ty ∧
         o = [("type", JStr ty)]) ∧
    (∀ a o, [field_schema "string"] !! a = Some o →
            Store.final t !! a = Some o).
Proof.
  apply (sort_enum_frame repr_plain person_type "/person/search" person_item
           [field_schema "string"]).
  reflexivity.
Defined.

Lemma field_coverage_witness :
  (∀ path item,
     path_item_at two_types_doc path = Some item →
     ∃ type fields,
       type ∈ [person_type; event_type] ∧
       type_path repr_plain type = Ok path ∧
       types_loop_body repr_plain type [] = Ok [(path, item)] ∧
       field_mapping type = Ok (JDict fields) ∧
       covers item fields) ∧
  (∀ type,
     type ∈ [person_type; event_type] →
     ∃ path item fields,
       type_path repr_plain type = Ok path ∧
       path_item_at two_types_doc path = Some item ∧
       field_mapping type = Ok (JDict fields) ∧
       covers item fields).
Proof.
  destruct (field_coverage repr_plain two_types_config two_types_doc
              [person_type; event_type]) as (H1 & _ & H3);
    [reflexivity..|].
  split; [exact H1|]. apply H3.
  apply NoDup_cons_2; [|apply NoDup_singleton].
  intros Hin%list_elem_of_singleton. discriminate Hin.
Defined.

Lemma static_parameters_constant_witness :
  json_at person_item [Key "parameters"; Idx 2] = Some page_parameter ∧
  json_at person_item' [Key "parameters"; Idx 2] = Some page_parameter ∧
  json_at person_item [Key "parameters"; Idx 3] =
    Some collapse_uuids_parameter ∧
  json_at person_item' [Key "parameters"; Idx 3] =
    Some collapse_uuids_parameter ∧
  json_at page_parameter [Key "schema"] =
    Some (JDict
            [ ("type", JStr "object");
              ("properties", JDict
                 [ ("size", JDict [("type", JStr "integer")]);
                   ("number", JDict [("type", JStr "integer")]) ]) ]) ∧
  json_at collapse_uuids_parameter [Key "schema"] =
    Some (JDict [("type", JStr "string"); ("enum", JList [JStr "t"])]).
Proof.
  apply (static_parameters_constant repr_plain person_config duplicate_config
           person_doc (document [("/person/search", person_item')])
           "/person/search" "/person/search" person_item person_item');
    reflexivity.
Defined.

(** * Further properties of the script *)

(** ** The helper [search_conf_props_to_openapi_filter_qp] *)

Lemma props_json_update (r : dict (dict json)) :
  props_json (dict_update [] r) =
  JDict (dict_update [] (prod_map id JDict <$> r)).
Proof. unfold props_json. by rewrite dict_update_fmap. Qed.

Lemma filter_qp_eq (s_conf_props : json) :
  search_conf_props_to_openapi_filter_qp s_conf_props =
  (props ← search_conf_props_to_openapi_props s_conf_props;
   Ok (filter_qp (props_json props))).
Proof.
  unfold search_conf_props_to_openapi_filter_qp,
    search_conf_props_to_openapi_props.
  destruct (items s_conf_props) as [its|e]; [|done]. simpl.
  rewrite openapi_filter_qp_loop_eq, openapi_props_loop_eq.
  destruct (field_schemas its) as [r|e]; [|done]. simpl.
  by rewrite props_json_update.
Qed.

(** X1.  The helper of lines 50-63, which the script never calls, raises
    what [search_conf_props_to_openapi_props] raises on the same argument
    and otherwise returns a parameter with the properties that function
    returns: the filter parameter that the loop builds, entry by entry,
    except that it has no description. *)
Theorem filter_qp_agrees (s_conf_props : json) :
  (∀ e,
     search_conf_props_to_openapi_filter_qp s_conf_props = Err e ↔
     search_conf_props_to_openapi_props s_conf_props = Err e) ∧
  (∀ qp,
     search_conf_props_to_openapi_filter_qp s_conf_props = Ok qp ↔
     ∃ props,
       search_conf_props_to_openapi_props s_conf_props = Ok props ∧
       json_at qp [Key "schema"; Key "properties"] = Some (props_json props) ∧
       json_at qp [Key "description"] = None ∧
       property_names qp = Some ["in"; "name"; "explode"; "style"; "schema"] ∧
       ∀ k, k ≠ "description" →
            json_at qp [Key k] =
            json_at (filter_parameter (props_json props)) [Key k]).
Proof.
  rewrite filter_qp_eq. split.
  - intros e. rewrite bind_Err. split; [|by left].
    by intros [He | (props & _ & [=])].
  - intros qp. rewrite bind_Ok. split.
    + intros (props & Hprops & [= <-]). exists props.
      do 4 (split; [done|]). intros k Hk. simpl.
      repeat case_decide; subst; done.
    + intros (props & Hprops & Hschema & Hdesc & Hnames & Hk).
      exists props. split; [done|]. f_equal.
      destruct qp as [| | | | | |d]; try done.
      injection Hnames as Hnames.
      destruct d as [|[k1 v1] [|[k2 v2] [|[k3 v3] [|[k4 v4] [|[k5 v5] [|? ?]]]]]];
        try done.
      injection Hnames as -> -> -> -> ->.
      pose proof (Hk "in" ltac:(done)) as H1.
      pose proof (Hk "name" ltac:(done)) as H2.
      pose proof (Hk "explode" ltac:(done)) as H3.
      pose proof (Hk "style" ltac:(done)) as H4.
      pose proof (Hk "schema" ltac:(done)) as H5.
      simpl in H1, H2, H3, H4, H5. by simplify_eq.
Qed.

(** ** When the script succeeds, and with which exception it fails *)

(** X2.  The script writes a document exactly for the configurations in
    which [mu_search_config["types"]] can be iterated and every element has
    a [type] entry, of any value, and a [mappings.properties] object whose
    fields all have a [type] of the table. *)
Theorem compile_succeeds_iff (repr_str : string → string)
    (mu_search_config : json) :
  is_Ok (compile repr_str mu_search_config) ↔
  ∃ types,
    types_of mu_search_config = Ok types ∧ Forall accepted_type types.
Proof.
  split.
  - intros [doc (types & es & Ht & He & _)%compile_Ok].
    exists types. split; [done|].
    assert (is_Ok (type_entries repr_str types)) as Hok by by exists es.
    apply mapM_result_cases in Hok.
    eapply Forall_impl; [exact Hok|]. intros type.
    apply type_entry_accepted.
  - intros (types & Ht & Htypes).
    assert (is_Ok (type_entries repr_str types)) as [es He].
    { apply mapM_result_cases. eapply Forall_impl; [exact Htypes|].
      intros type. apply type_entry_accepted. }
    exists (document (dict_update [] es)). apply compile_Ok.
    by exists types, es.
Qed.

Lemma getitem_Err (v : json) (k : string) (e : exn) :
  getitem v k = Err e → e = KeyError (JStr k) ∨ ∃ why, e = TypeError why.
Proof.
  destruct v as [| | | | | |d]; simpl; try (intros [= <-]; right; by eexists).
  destruct (dict_get d k); intros [= <-]. by left.
Qed.

Lemma types_of_Err (mu_search_config : json) (e : exn) :
  types_of mu_search_config = Err e →
  e = KeyError (JStr "types") ∨ ∃ why, e = TypeError why.
Proof.
  unfold types_of. intros [He | (types & _ & He)]%bind_Err.
  - by apply getitem_Err in He.
  - right. destruct types; simplify_eq/=; by eexists.
Qed.

Lemma field_mapping_Err_cases (type : json) (e : exn) :
  field_mapping type = Err e →
  e = KeyError (JStr "mappings") ∨ e = KeyError (JStr "properties") ∨
  ∃ why, e = TypeError why.
Proof.
  unfold field_mapping. intros [He | (m & _ & He)]%bind_Err.
  - apply getitem_Err in He as [-> | ?]; tauto.
  - apply getitem_Err in He as [-> | ?]; tauto.
Qed.

Lemma field_entry_Err (kv : string * json) (e : exn) :
  field_entry kv = Err e →
  e = KeyError (JStr "type") ∨ (∃ why, e = TypeError why) ∨
  ∃ t, getitem kv.2 "type" = Ok t ∧ (t ∉ supported_types) ∧ e = KeyError t.
Proof.
  unfold field_entry, field_type.
  intros [[He | (t & Ht & He)]%bind_Err | (? & _ & [=])]%bind_Err.
  - apply getitem_Err in He as [-> | ?]; tauto.
  - assert (t ∉ supported_types) as Hu.
    { intros [ty Hty]%es_type_lookup_is_Ok. congruence. }
    apply es_type_lookup_Err in He as [-> | ->].
    + right. right. by exists t.
    + right. left. by eexists.
Qed.

(** X3.  The exceptions with which the script can end are: [KeyError] for
    one of the keys [types], [type], [mappings] and [properties] that it
    subscripts with, [KeyError] for a declared field type that the table
    does not have, [TypeError], and [AttributeError] for [items] on a field
    mapping that is not an object.  No other exception comes out of the
    loops. *)
Theorem compile_errors (repr_str : string → string)
    (mu_search_config : json) (e : exn) :
  compile repr_str mu_search_config = Err e →
  (∃ k, k ∈ ["types"; "type"; "mappings"; "properties"] ∧
        e = KeyError (JStr k)) ∨
  (∃ why, e = TypeError why) ∨
  e = AttributeError "items" ∨
  (∃ types type key t,
     types_of mu_search_config = Ok types ∧
     type ∈ types ∧
     declares type key t ∧
     (t ∉ supported_types) ∧
     e = KeyError t).
Proof.
  intros [He | (types & Ht & He)]%compile_Err.
  - apply types_of_Err in He as [-> | ?]; [left|tauto].
    exists "types". split; [set_solver | done].
  - apply mapM_result_Err_elem in He as (type & Hin & He).
    unfold type_entry in He.
    apply bind_Err in He as [He | (name & _ & He)].
    { apply getitem_Err in He as [-> | ?]; [left|tauto].
      exists "type". split; [set_solver | done]. }
    apply bind_Err in He as [He | (? & _ & [=])].
    rewrite type_props_eq in He.
    apply bind_Err in He as [He | (properties & Hm & He)].
    { apply field_mapping_Err_cases in He as [-> | [-> | ?]]; [left|left|tauto].
      - exists "mappings". split; [set_solver | done].
      - exists "properties". split; [set_solver | done]. }
    destruct properties as [| | | | | |fields];
      try (injection He as <-; tauto).
    rewrite search_conf_props_eq in He.
    apply bind_Err in He as [He | (? & _ & [=])].
    apply mapM_result_Err_elem in He as ([key props] & Hkv & He).
    apply field_entry_Err in He as [-> | [? | (t & Hget & Hu & ->)]];
      [left|tauto|].
    + exists "type". split; [set_solver | done].
    + do 3 right. exists types, type, key, t. do 2 (split; [done|]).
      split; [by exists fields, props | done].
Qed.

Lemma compile_errors_witness :
  (∃ k, k ∈ ["types"; "type"; "mappings"; "properties"] ∧
        KeyError (JStr "float") = KeyError (JStr k)) ∨
  (∃ why, KeyError (JStr "float") = TypeError why) ∨
  KeyError (JStr "float") = AttributeError "items" ∨
  (∃ types type key t,
     types_of float_config = Ok types ∧
     type ∈ types ∧
     declares type key t ∧
     (t ∉ supported_types) ∧
     KeyError (JStr "float") = KeyError t).
Proof.
  apply (compile_errors repr_plain float_config (KeyError (JStr "float"))).
  reflexivity.
Defined.

Lemma types_loop_body_Err (repr_str : string → string) (type : json)
    (paths_obj : dict json) (e : exn) :
  types_loop_body repr_str type paths_obj = Err e ↔
  type_entry repr_str type = Err e.
Proof.
  rewrite types_loop_body_eq, bind_Err. split; [|by left].
  by intros [? | (? & _ & [=])].
Qed.

Lemma types_loop_body_is_Ok (repr_str : string → string) (type : json)
    (paths_obj : dict json) :
  is_Ok (types_loop_body repr_str type paths_obj) ↔
  is_Ok (type_entry repr_str type).
Proof.
  rewrite types_loop_body_eq. split.
  - intros [paths (entry & Hentry & _)%bind_Ok]. by exists entry.
  - intros [entry Hentry]. eexists. apply bind_Ok. by exists entry.
Qed.

(** X4.  The exception of a run is the one of the first thing that raises,
    in the order of the script: the lookup and the iteration of [types],
    then the types in their order, and for a type the lookup of its name
    before its field mapping.  What comes after the type that raises is
    not looked at, and whether a turn raises does not depend on the paths
    collected so far. *)
Theorem first_failure (repr_str : string → string)
    (mu_search_config : json) (e : exn) :
  (compile repr_str mu_search_config = Err e ↔
   types_of mu_search_config = Err e ∨
   ∃ pre type post,
     types_of mu_search_config = Ok (pre ++ type :: post) ∧
     Forall (λ type', is_Ok (types_loop_body repr_str type' [])) pre ∧
     types_loop_body repr_str type [] = Err e) ∧
  (∀ type paths_obj,
     types_loop_body repr_str type paths_obj = Err e ↔
     getitem type "type" = Err e ∨
     is_Ok (getitem type "type") ∧ type_props type = Err e).
Proof.
  split.
  - rewrite compile_Err. split.
    + intros [He | (types & Ht & He)]; [by left|]. right.
      apply mapM_result_Err in He as (pre & type & post & -> & Hpre & He).
      exists pre, type, post. split; [done|]. split.
      * eapply Forall_impl; [exact Hpre|]. intros type'.
        apply types_loop_body_is_Ok.
      * by apply types_loop_body_Err.
    + intros [He | (pre & type & post & Ht & Hpre & He)]; [by left|]. right.
      exists (pre ++ type :: post). split; [done|].
      apply mapM_result_Err. exists pre, type, post. split; [done|]. split.
      * eapply Forall_impl; [exact Hpre|]. intros type'.
        apply types_loop_body_is_Ok.
      * by apply types_loop_body_Err in He.
  - intros type paths_obj. rewrite types_loop_body_Err.
    unfold type_entry. rewrite bind_Err. split.
    + intros [He | (name & Hname & [He | (? & _ & [=])]%bind_Err)];
        [by left|]. right. split; [by exists name | done].
    + intros [He | [[name Hname] He]]; [by left|]. right. exists name.
      split; [done|]. apply bind_Err. by left.
Qed.

(** ** What the script reads *)

Lemma mapM_result_Forall2 {A A' B} (f : A → result B) (g : A' → result B)
    (l : list A) (k : list A') :
  Forall2 (λ x y, f x = g y) l k → mapM f l = mapM g k.
Proof.
  induction 1 as [|x y l k Hxy _ IH]; [done|].
  by rewrite !mapM_result_cons, Hxy, IH.
Qed.

Lemma same_fields_schemas (fields fields' : dict json) :
  same_fields fields fields' → field_schemas fields = field_schemas fields'.
Proof.
  intros H. apply mapM_result_Forall2.
  eapply Forall2_impl; [exact H|].
  intros [k p] [k' p'] [Hk Ht]. simpl in *. subst k'.
  unfold field_entry, field_type. simpl. by rewrite Ht.
Qed.

Lemma same_reading_entry (repr_str : string → string) (type type' : json) :
  same_reading type type' →
  type_entry repr_str type = type_entry repr_str type'.
Proof.
  intros [Hname Hmap]. unfold type_entry. rewrite Hname.
  destruct (getitem type' "type") as [name|]; [|done]. simpl.
  rewrite !type_props_eq.
  destruct (field_mapping type) as [v|e], (field_mapping type') as [v'|e'];
    [|by destruct v|by destruct v'|by simplify_eq/=].
  destruct v as [| | | | | |fields], v' as [| | | | | |fields'];
    simpl in *; try done.
  by rewrite !search_conf_props_eq, (same_fields_schemas _ _ Hmap).
Qed.

(** X5.  The result of a run depends on the configuration only through
    what the script reads: the elements that [types] runs over, of each
    its [type] entry and its field mapping, and of each field its name and
    its [type] entry.  Two configurations that agree on these, exceptions
    of the lookups included, give the same document or the same exception,
    whatever other entries they have. *)
Theorem reads_only (repr_str : string → string) (config config' : json) :
  same_types (types_of config) (types_of config') →
  compile repr_str config = compile repr_str config'.
Proof.
  intros Htypes. rewrite !compile_types_of.
  destruct (types_of config) as [types|e], (types_of config') as [types'|e'];
    [|done|done|by simplify_eq/=]. simpl in *.
  unfold type_entries.
  rewrite (mapM_result_Forall2 (type_entry repr_str) (type_entry repr_str)
             types types'); [done|].
  eapply Forall2_impl; [exact Htypes|]. intros type type'.
  apply same_reading_entry.
Qed.

Lemma reads_only_witness :
  compile repr_plain annotated_person_config =
    compile repr_plain person_config ∧
  compile repr_plain (JDict [("types", JList [annotated_bare_type])]) =
    compile repr_plain (JDict [("types", JList [bare_type])]).
Proof.
  split.
  - apply (reads_only repr_plain annotated_person_config person_config).
    change (Forall2 same_reading [annotated_person_type] [person_type]).
    constructor; [|constructor]. split; [reflexivity|].
    change (same_fields
              [ ("name", JDict [("type", JStr "text");
                                ("analyzer", JStr "dutchanalyzer")]);
                ("age", JDict [("type", JStr "integer")]) ]
              person_fields).
    repeat constructor.
  - apply (reads_only repr_plain).
    change (Forall2 same_reading [annotated_bare_type] [bare_type]).
    constructor; [|constructor]. split; reflexivity.
Defined.

(** ** The parts of a path item *)

(** X6.  The key of every entry of [paths] and the description of its
    operation are made from the name of one type of the configuration:
    ["/{name}/search"] and ["Search the {name} index"], with the name
    itself when it is a string. *)
Theorem path_and_description (repr_str : string → string)
    (mu_search_config doc : json) (path : string) (item : json) :
  compile repr_str mu_search_config = Ok doc →
  path_item_at doc path = Some item →
  ∃ types type name,
    types_of mu_search_config = Ok types ∧
    type ∈ types ∧
    getitem type "type" = Ok name ∧
    path = "/" +:+ format_value repr_str name +:+ "/search" ∧
    json_at item [Key "get"; Key "description"] =
      Some (JStr ("Search the " +:+ format_value repr_str name +:+ " index")) ∧
    ∀ s, name = JStr s →
         path = "/" +:+ s +:+ "/search" ∧
         json_at item [Key "get"; Key "description"] =
           Some (JStr ("Search the " +:+ s +:+ " index")).
Proof.
  intros Hdoc Hitem.
  destruct (compile_item _ _ _ _ _ Hdoc Hitem) as (types & type & Ht & Hin & He).
  apply type_entry_Ok in He as (name & props & Hname & _ & -> & ->).
  exists types, type, name. do 5 (split; [done|]). by intros s ->.
Qed.

Lemma path_and_description_witness :
  ∃ types type name,
    types_of person_config = Ok types ∧
    type ∈ types ∧
    getitem type "type" = Ok name ∧
    "/person/search" = "/" +:+ format_value repr_plain name +:+ "/search" ∧
    json_at person_item [Key "get"; Key "description"] =
      Some (JStr ("Search the " +:+ format_value repr_plain name +:+ " index")) ∧
    ∀ s, name = JStr s →
         "/person/search" = "/" +:+ s +:+ "/search" ∧
         json_at person_item [Key "get"; Key "description"] =
           Some (JStr ("Search the " +:+ s +:+ " index")).
Proof.
  apply (path_and_description repr_plain person_config person_doc);
    reflexivity.
Defined.

(** X7.  Every path item has a [get] operation and a [parameters] list and
    nothing else; the operation has one response, [200], with an
    [application/json] schema whose [data] object has the properties [id]
    and [type], both strings, and [attributes], an object. *)
Theorem path_item_shape (repr_str : string → string)
    (mu_search_config doc : json) (path : string) (item : json) :
  compile repr_str mu_search_config = Ok doc →
  path_item_at doc path = Some item →
  property_names item = Some ["get"; "parameters"] ∧
  json_at item [Key "get"] ≫= property_names =
    Some ["description"; "responses"] ∧
  json_at item [Key "get"; Key "responses"] ≫= property_names = Some ["200"] ∧
  json_at item [Key "get"; Key "responses"; Key "200"; Key "content"]
    ≫= property_names = Some ["application/json"] ∧
  ∃ data,
    json_at item [Key "get"; Key "responses"; Key "200"; Key "content";
                  Key "application/json"; Key "schema"; Key "properties";
                  Key "data"; Key "properties"] = Some data ∧
    property_names data = Some ["id"; "type"; "attributes"] ∧
    json_at data [Key "id"] = Some (JDict [("type", JStr "string")]) ∧
    json_at data [Key "type"] = Some (JDict [("type", JStr "string")]) ∧
    json_at data [Key "attributes"; Key "type"] = Some (JStr "object").
Proof.
  intros Hdoc Hitem.
  destruct (compile_item _ _ _ _ _ Hdoc Hitem) as (types & type & _ & _ & He).
  apply type_entry_Ok in He as (name & props & _ & _ & _ & ->).
  do 4 (split; [done|]). by eexists.
Qed.

Lemma path_item_shape_witness :
  property_names person_item = Some ["get"; "parameters"] ∧
  json_at person_item [Key "get"] ≫= property_names =
    Some ["description"; "responses"] ∧
  json_at person_item [Key "get"; Key "responses"] ≫= property_names =
    Some ["200"] ∧
  json_at person_item [Key "get"; Key "responses"; Key "200"; Key "content"]
    ≫= property_names = Some ["application/json"] ∧
  ∃ data,
    json_at person_item
      [Key "get"; Key "responses"; Key "200"; Key "content";
       Key "application/json"; Key "schema"; Key "properties";
       Key "data"; Key "properties"] = Some data ∧
    property_names data = Some ["id"; "type"; "attributes"] ∧
    json_at data [Key "id"] = Some (JDict [("type", JStr "string")]) ∧
    json_at data [Key "type"] = Some (JDict [("type", JStr "string")]) ∧
    json_at data [Key "attributes"; Key "type"] = Some (JStr "object").
Proof.
  apply (path_item_shape repr_plain person_config person_doc "/person/search");
    reflexivity.
Defined.

(** X8.  In every path item the properties of the response attributes and
    of the filter schema are the same list, and each of them is
    [{"type": "string"}] or [{"type": "integer"}]: it is the schema of a
    field of that name, and it is [integer] exactly when the field is
    declared [integer]. *)
Theorem property_types (repr_str : string → string)
    (mu_search_config doc : json) (path : string) (item : json) :
  compile repr_str mu_search_config = Ok doc →
  path_item_at doc path = Some item →
  ∃ properties,
    json_at item attributes_properties = Some (JDict properties) ∧
    json_at item filter_properties = Some (JDict properties) ∧
    ∀ key schema,
      (key, schema) ∈ properties →
      (schema = JDict [("type", JStr "string")] ∨
       schema = JDict [("type", JStr "integer")]) ∧
      ∃ types type fields props t,
        types_of mu_search_config = Ok types ∧
        type ∈ types ∧
        field_mapping type = Ok (JDict fields) ∧
        (key, props) ∈ fields ∧
        getitem props "type" = Ok t ∧
        (schema = JDict [("type", JStr "integer")] ↔ t = JStr "integer").
Proof.
  intros Hdoc Hitem.
  destruct (compile_item _ _ _ _ _ Hdoc Hitem) as (types & type & Ht & Hin & He).
  apply type_entry_Ok in He as (name & props & _ & Hprops & _ & ->).
  eexists. split; [apply path_item_attributes|].
  split; [apply path_item_filter|].
  intros key schema (o & -> & Ho)%elem_of_props_json.
  destruct (type_props_values _ _ _ _ Hprops Ho)
    as (fields & p & ty & Hm & Hp & Hty & ->).
  unfold field_type in Hty. apply bind_Ok in Hty as (t & Hget & Hty).
  apply es_type_lookup_Ok in Hty as [[Ht' ->] | [-> ->]].
  - split; [by left|]. exists types, type, fields, p, t.
    do 5 (split; [done|]). split; [done|].
    intros ->. by destruct Ht' as [? | [? | ?]].
  - split; [by right|]. by exists types, type, fields, p, (JStr "integer").
Qed.

Lemma property_types_witness :
  ∃ properties,
    json_at person_item attributes_properties = Some (JDict properties) ∧
    json_at person_item filter_properties = Some (JDict properties) ∧
    ∀ key schema,
      (key, schema) ∈ properties →
      (schema = JDict [("type", JStr "string")] ∨
       schema = JDict [("type", JStr "integer")]) ∧
      ∃ types type fields props t,
        types_of person_config = Ok types ∧
        type ∈ types ∧
        field_mapping type = Ok (JDict fields) ∧
        (key, props) ∈ fields ∧
        getitem props "type" = Ok t ∧
        (schema = JDict [("type", JStr "integer")] ↔ t = JStr "integer").
Proof.
  apply (property_types repr_plain person_config person_doc "/person/search");
    reflexivity.
Defined.

(** X9.  The sort schema of a path item has the properties of the filter
    schema, in the same order, each with [enum] added after its [type]. *)
Theorem sort_extends_filter (repr_str : string → string)
    (mu_search_config doc : json) (path : string) (item : json) :
  compile repr_str mu_search_config = Ok doc →
  path_item_at doc path = Some item →
  ∃ filter sort,
    json_at item filter_properties = Some (JDict filter) ∧
    json_at item sort_properties = Some (JDict sort) ∧
    Forall2
      (λ f s, s.1 = f.1 ∧
              ∃ o, f.2 = JDict o ∧
                   s.2 = JDict (o ++ [("enum", JList [JStr "asc"; JStr "desc"])]))
      filter sort.
Proof.
  intros Hdoc Hitem.
  destruct (compile_item _ _ _ _ _ Hdoc Hitem) as (types & type & Ht & Hin & He).
  apply type_entry_Ok in He as (name & props & _ & Hprops & _ & ->).
  eexists _, _. split; [apply path_item_filter|].
  split; [apply path_item_sort|].
  unfold sort_enum_loop. apply Forall2_fmap, Forall2_fmap_r.
  apply Forall_Forall2_diag, Forall_forall. intros [key o] Ho.
  destruct (type_props_values _ _ _ _ Hprops Ho) as (_ & _ & ty & _ & _ & _ & ->).
  split; [done|]. by eexists.
Qed.

Lemma sort_extends_filter_witness :
  ∃ filter sort,
    json_at person_item filter_properties = Some (JDict filter) ∧
    json_at person_item sort_properties = Some (JDict sort) ∧
    Forall2
      (λ f s, s.1 = f.1 ∧
              ∃ o, f.2 = JDict o ∧
                   s.2 = JDict (o ++ [("enum", JList [JStr "asc"; JStr "desc"])]))
      filter sort.
Proof.
  apply (sort_extends_filter repr_plain person_config person_doc
           "/person/search"); reflexivity.
Defined.

(** ** The order and the number of the paths *)

Lemma dict_keys_update_nil {A} (kvs : list (string * A)) :
  dict_keys (dict_update [] kvs) = reverse (remove_dups (reverse kvs.*1)).
Proof.
  induction kvs as [|[k v] kvs IH] using rev_ind; [done|].
  replace ((kvs ++ [(k, v)]).*1) with (kvs.*1 ++ [k]) by by rewrite fmap_app.
  rewrite dict_update_snoc, reverse_snoc. simpl.
  destruct (decide_rel elem_of k (reverse kvs.*1)) as [Hin|Hnin].
  - rewrite dict_keys_set_present; [done|].
    apply elem_of_dict_keys_update. right. by apply elem_of_reverse.
  - rewrite dict_set_fresh.
    + unfold dict_keys in *. by rewrite fmap_app, IH, reverse_cons.
    + intros [H|H]%elem_of_dict_keys_update; [by apply elem_of_nil in H|].
      by apply Hnin, elem_of_reverse.
Qed.

(** X10.  The keys of [paths] are the paths of the types in the order of
    the configuration, a path that several types have standing where the
    first of them stands: the order of the types themselves when no two
    have the same path. *)
Theorem paths_order (repr_str : string → string)
    (mu_search_config doc : json) (types : list json) :
  compile repr_str mu_search_config = Ok doc →
  types_of mu_search_config = Ok types →
  ∃ paths ps,
    json_at doc [Key "paths"] = Some (JDict paths) ∧
    Forall2 (λ type p, type_path repr_str type = Ok p) types ps ∧
    dict_keys paths = reverse (remove_dups (reverse ps)) ∧
    (NoDup ps → dict_keys paths = ps).
Proof.
  intros Hdoc Htypes.
  destruct (compile_paths _ _ _ _ Hdoc Htypes) as (es & He & ->).
  exists (dict_update [] es), es.*1. split; [done|]. split; [|split].
  - apply Forall2_fmap_r. eapply Forall2_impl; [exact He|].
    intros type [path item]. apply type_entry_path.
  - apply dict_keys_update_nil.
  - intros Hnd. by rewrite dict_update_nil.
Qed.

Lemma paths_order_witness :
  ∃ paths ps,
    json_at (document [("/person/search", person_item')]) [Key "paths"] =
      Some (JDict paths) ∧
    Forall2 (λ type p, type_path repr_plain type = Ok p)
      [person_type; person_type'] ps ∧
    dict_keys paths = reverse (remove_dups (reverse ps)) ∧
    (NoDup ps → dict_keys paths = ps).
Proof.
  apply (paths_order repr_plain duplicate_config); reflexivity.
Defined.

(** X11.  A document has no paths exactly when the loop runs over nothing:
    an empty list, an empty object or an empty string under [types]. *)
Theorem empty_paths (repr_str : string → string)
    (mu_search_config doc : json) (types : list json) :
  compile repr_str mu_search_config = Ok doc →
  types_of mu_search_config = Ok types →
  (json_at doc [Key "paths"] = Some (JDict []) ↔ types = []) ∧
  (types = [] ↔
   getitem mu_search_config "types" = Ok (JList []) ∨
   getitem mu_search_config "types" = Ok (JDict []) ∨
   getitem mu_search_config "types" = Ok (JStr "")).
Proof.
  intros Hdoc Htypes.
  destruct (compile_paths _ _ _ _ Hdoc Htypes) as (es & He & ->). split.
  - split.
    + intros [= Hnil]. destruct He as [|type [path item] types es _ _]; [done|].
      assert (path ∈ dict_keys (dict_update [] ((path, item) :: es))) as Hin.
      { apply elem_of_dict_keys_update. right. apply list_elem_of_here. }
      rewrite Hnil in Hin. by apply elem_of_nil in Hin.
    + intros ->. by apply Forall2_nil_inv_l in He as ->.
  - unfold types_of in Htypes.
    apply bind_Ok in Htypes as (v & Hv & Hiter). rewrite Hv. split.
    + intros ->. destruct v as [| | | |s|xs|d]; simplify_eq/=.
      * right. right. by destruct s.
      * by left.
      * right. left. by destruct d.
    + intros [[= ->] | [[= ->] | [= ->]]]; by simplify_eq/=.
Qed.

Lemma empty_paths_witness :
  (json_at (document []) [Key "paths"] = Some (JDict []) ↔ @nil json = []) ∧
  (@nil json = [] ↔
   getitem empty_object_config "types" = Ok (JList []) ∨
   getitem empty_object_config "types" = Ok (JDict []) ∨
   getitem empty_object_config "types" = Ok (JStr "")).
Proof.
  apply (empty_paths repr_plain empty_object_config); reflexivity.
Defined.

(** ** The objects of one turn *)

Lemma store_type_props_eq (type : json) (σ : Store.store) :
  Store.type_props type σ =
  (properties ← field_mapping type;
   its ← items properties;
   r ← field_schemas its;
   Ok (dict_update [] (zip r.*1 (seq (length σ) (length r))), σ ++ r.*2)).
Proof.
  unfold Store.type_props, field_mapping.
  destruct (getitem type "mappings") as [mappings|]; [|done]. simpl.
  destruct (getitem mappings "properties") as [properties|]; [|done]. simpl.
  unfold Store.search_conf_props_to_openapi_props.
  destruct (items properties) as [its|]; [|done]. simpl.
  apply StoreFacts.openapi_props_loop_spec.
Qed.

Lemma type_props_items (type : json) :
  type_props type =
  (properties ← field_mapping type;
   its ← items properties;
   r ← field_schemas its;
   Ok (dict_update [] r)).
Proof.
  rewrite type_props_eq.
  destruct (field_mapping type) as [properties|]; [|done]. simpl.
  unfold search_conf_props_to_openapi_props.
  destruct (items properties) as [its|]; [|done]. simpl.
  apply openapi_props_loop_eq.
Qed.

Lemma elem_of_new_addresses (n : nat) (r : dict (dict json)) (a : nat) :
  a ∈ (dict_update [] (zip r.*1 (seq n (length r)))).*2 →
  (n ≤ a < n + length r)%nat.
Proof.
  intros (kv & -> & Hkv)%list_elem_of_fmap.
  pose proof (StoreFacts.new_addresses n r) as H.
  rewrite Forall_forall in H. by apply H.
Qed.

Lemma loop_turn_cases (type : json) (σ : Store.store) :
  (∃ e, type_props type = Err e ∧ Store.loop_turn type σ = Err e) ∨
  (∃ fields r,
     field_mapping type = Ok (JDict fields) ∧
     field_schemas fields = Ok r ∧
     Store.loop_turn type σ =
     Ok (Store.Turn
           (dict_update [] (zip r.*1 (seq (length σ) (length r))))
           (dict_update [] (zip r.*1 (seq (length (σ ++ r.*2)) (length r))))
           (dict_update []
              (zip r.*1 (seq (length ((σ ++ r.*2) ++ r.*2)) (length r))))
           (((σ ++ r.*2) ++ r.*2) ++ r.*2)
           (Store.sort_enum_loop
              (dict_update []
                 (zip r.*1 (seq (length ((σ ++ r.*2) ++ r.*2)) (length r))))
              (((σ ++ r.*2) ++ r.*2) ++ r.*2)))).
Proof.
  destruct (type_props type) as [props|e] eqn:Hprops.
  - right. apply type_props_Ok in Hprops as (fields & r & Hm & Hr & _).
    exists fields, r. do 2 (split; [done|]). unfold Store.loop_turn.
    rewrite (StoreFacts.type_props_spec _ σ _ _ Hm Hr). simpl.
    rewrite (StoreFacts.type_props_spec _ (σ ++ r.*2) _ _ Hm Hr). simpl.
    by rewrite (StoreFacts.type_props_spec _ ((σ ++ r.*2) ++ r.*2) _ _ Hm Hr).
  - left. exists e. split; [done|]. unfold Store.loop_turn.
    rewrite store_type_props_eq. rewrite type_props_items in Hprops.
    destruct (field_mapping type) as [properties|]; simpl in *;
      [|by simplify_eq].
    destruct (items properties) as [its|]; simpl in *; [|by simplify_eq].
    destruct (field_schemas its); simpl in *; by simplify_eq.
Qed.

(** The three calls of a turn raise what the call on the field mapping
    raises; otherwise they add three objects per field, and the three
    property dictionaries hold objects of the turn only, no object being
    in two of them. *)
Lemma loop_turn_objects (type : json) (σ : Store.store) :
  (∀ e, Store.loop_turn type σ = Err e ↔ type_props type = Err e) ∧
  (∀ t,
     Store.loop_turn type σ = Ok t →
     ∃ fields,
       field_mapping type = Ok (JDict fields) ∧
       length (Store.built t) = length σ + 3 * length fields ∧
       length (Store.final t) = length (Store.built t) ∧
       (∀ a, a ∈ (Store.attributes t).*2 ∨
             a ∈ (Store.filter_props t).*2 ∨
             a ∈ (Store.sort_props t).*2 →
             (length σ ≤ a < length (Store.built t))%nat) ∧
       (∀ a, a ∈ (Store.attributes t).*2 →
             (a ∉ (Store.filter_props t).*2) ∧
             (a ∉ (Store.sort_props t).*2)) ∧
       (∀ a, a ∈ (Store.filter_props t).*2 →
             a ∉ (Store.sort_props t).*2)).
Proof.
  destruct (loop_turn_cases type σ)
    as [(e0 & Hprops & ->) | (fields & r & Hm & Hr & ->)].
  { rewrite Hprops. split; [|done]. intros e; split; by intros [= ->]. }
  assert (type_props type = Ok (dict_update [] r)) as ->.
  { apply type_props_Ok. by exists fields, r. }
  split; [done|]. intros t [= <-]. simpl. exists fields. split; [done|].
  assert (length r = length fields) as Hlen.
  { apply field_schemas_Ok in Hr. symmetry. by eapply Forall2_length. }
  rewrite StoreFacts.length_sort_enum_loop, !length_app, !length_fmap.
  split; [lia|]. split; [done|]. split; [|split].
  - intros a [Ha | [Ha | Ha]]; apply elem_of_new_addresses in Ha;
      rewrite ?length_app, ?length_fmap in Ha; lia.
  - intros a Ha%elem_of_new_addresses.
    split; intros Ha'%elem_of_new_addresses;
      rewrite ?length_app, ?length_fmap in Ha'; lia.
  - intros a Ha%elem_of_new_addresses Ha'%elem_of_new_addresses.
    rewrite ?length_app, ?length_fmap in Ha, Ha'. lia.
Qed.

(** X12.  With the objects of the property dictionaries told apart, one
    turn of the loop (the two lookups of the name, the three calls of
    [search_conf_props_to_openapi_props], the assignments of line 134)
    raises exactly the exception that the turn raises in the script,
    whatever the paths collected so far.  Otherwise the three calls make
    three new property objects per field, line 134 adds and removes none,
    every object that the attributes, the filter or the sort dictionary
    holds was made in this turn, and no object is held by two of the
    dictionaries. *)
Theorem types_loop_turn_fresh (repr_str : string → string) (type : json)
    (σ : Store.store) (paths_obj : dict json) :
  (∀ e, Store.types_loop_turn type σ = Err e ↔
        types_loop_body repr_str type paths_obj = Err e) ∧
  (is_Ok (Store.types_loop_turn type σ) ↔
   is_Ok (types_loop_body repr_str type paths_obj)) ∧
  (∀ t,
     Store.types_loop_turn type σ = Ok t →
     ∃ fields,
       field_mapping type = Ok (JDict fields) ∧
       length (Store.built t) = length σ + 3 * length fields ∧
       length (Store.final t) = length (Store.built t) ∧
       (∀ a, a ∈ (Store.attributes t).*2 ∨
             a ∈ (Store.filter_props t).*2 ∨
             a ∈ (Store.sort_props t).*2 →
             (length σ ≤ a < length (Store.built t))%nat) ∧
       (∀ a, a ∈ (Store.attributes t).*2 →
             (a ∉ (Store.filter_props t).*2) ∧
             (a ∉ (Store.sort_props t).*2)) ∧
       (∀ a, a ∈ (Store.filter_props t).*2 →
             a ∉ (Store.sort_props t).*2)).
Proof.
  destruct (loop_turn_objects type σ) as [Herr Hok].
  assert (∀ e, Store.types_loop_turn type σ = Err e ↔
               types_loop_body repr_str type paths_obj = Err e) as Herrs.
  { intros e. rewrite types_loop_body_Err.
    unfold Store.types_loop_turn, type_entry.
    destruct (getitem type "type") as [name|e0]; simpl;
      [|split; by intros [= ->]].
    rewrite Herr, bind_Err. split; [by left|].
    by intros [? | (? & _ & [=])]. }
  split; [done|]. split.
  - split.
    + intros [t Ht].
      destruct (result_cases (types_loop_body repr_str type paths_obj))
        as [?|[e He]]; [done|].
      apply Herrs in He. congruence.
    + intros [p Hp].
      destruct (result_cases (Store.types_loop_turn type σ))
        as [?|[e He]]; [done|].
      apply Herrs in He. congruence.
  - intros t Ht. apply Hok. unfold Store.types_loop_turn in Ht.
    by destruct (getitem type "type").
Qed.

Lemma types_loop_turn_fresh_witness :
  ∃ t fields,
    Store.types_loop_turn person_type [field_schema "string"] = Ok t ∧
    field_mapping person_type = Ok (JDict fields) ∧
    length (Store.built t) =
      length [field_schema "string"] + 3 * length fields ∧
    length (Store.final t) = length (Store.built t) ∧
    (∀ a, a ∈ (Store.attributes t).*2 ∨
          a ∈ (Store.filter_props t).*2 ∨
          a ∈ (Store.sort_props t).*2 →
          (length [field_schema "string"] ≤ a < length (Store.built t))%nat) ∧
    (∀ a, a ∈ (Store.attributes t).*2 →
          (a ∉ (Store.filter_props t).*2) ∧
          (a ∉ (Store.sort_props t).*2)) ∧
    (∀ a, a ∈ (Store.filter_props t).*2 →
          a ∉ (Store.sort_props t).*2).
Proof.
  eexists.
  destruct (proj2 (proj2 (types_loop_turn_fresh repr_plain person_type
                            [field_schema "string"] []))
              _ eq_refl) as (fields & H).
  exists fields. split; [reflexivity | exact H].
Defined.

(** ** How the turns of the loop compose *)

Lemma types_loop_app (repr_str : string → string) (types more : list json)
    (paths_obj : dict json) :
  types_loop repr_str (types ++ more) paths_obj =
  (paths_obj' ← types_loop repr_str types paths_obj;
   types_loop repr_str more paths_obj').
Proof.
  revert paths_obj. induction types as [|type types IH]; intros acc; [done|].
  simpl. destruct (types_loop_body repr_str type acc); [apply IH | done].
Qed.

(** X13.  The loop over a list of types followed by more types is the loop
    over the first, then the loop over the others from the paths that the
    first left.  One more type at the end of a list that the loop accepts
    puts its path item at its path, in place of the item that was there if
    there was one, and leaves the item of every other path as it was. *)
Theorem types_loop_compose (repr_str : string → string)
    (types : list json) (type : json) (paths : dict json)
    (path : string) (item : json) :
  types_loop repr_str types [] = Ok paths →
  types_loop_body repr_str type [] = Ok [(path, item)] →
  (∀ more paths_obj,
     types_loop repr_str (types ++ more) paths_obj =
     (paths_obj' ← types_loop repr_str types paths_obj;
      types_loop repr_str more paths_obj')) ∧
  ∃ paths',
    types_loop repr_str (types ++ [type]) [] = Ok paths' ∧
    dict_get paths' path = Some item ∧
    (∀ path', path' ≠ path → dict_get paths' path' = dict_get paths path') ∧
    (path ∈ dict_keys paths → dict_keys paths' = dict_keys paths) ∧
    (path ∉ dict_keys paths → paths' = paths ++ [(path, item)]).
Proof.
  intros Hpaths Hitem. split; [intros; apply types_loop_app|].
  rewrite types_loop_body_eq in Hitem.
  apply bind_Ok in Hitem as ([path' item'] & Hentry & [= -> ->]).
  exists (dict_set paths path item). split.
  - rewrite types_loop_app, Hpaths. simpl.
    by rewrite types_loop_body_eq, Hentry.
  - split; [apply dict_get_set_eq|].
    split; [intros path' Hne; by apply dict_get_set_ne|].
    split; [apply dict_keys_set_present | apply dict_set_fresh].
Qed.

Lemma types_loop_compose_witness :
  ∃ paths',
    types_loop repr_plain ([person_type] ++ [person_type']) [] = Ok paths' ∧
    dict_get paths' "/person/search" = Some person_item' ∧
    (∀ path', path' ≠ "/person/search" →
              dict_get paths' path' =
              dict_get [("/person/search", person_item)] path') ∧
    ("/person/search" ∈ dict_keys [("/person/search", person_item)] →
     dict_keys paths' = dict_keys [("/person/search", person_item)]) ∧
    ("/person/search" ∉ dict_keys [("/person/search", person_item)] →
     paths' = [("/person/search", person_item)] ++
              [("/person/search", person_item')]).
Proof.
  apply (types_loop_compose repr_plain [person_type] person_type'
           [("/person/search", person_item)] "/person/search" person_item');
    reflexivity.
Defined.

(** ** The fields of one mapping *)

(** X14.  [search_conf_props_to_openapi_props] raises [AttributeError] on
    an argument that is not an object.  On an object it raises what the
    first field raises that has no [type] the table can map: [TypeError]
    for a field that is not an object or whose [type] cannot be hashed,
    [KeyError("type")] for an object without the key, [KeyError] with the
    declared type otherwise.  The fields after that one are not looked
    at. *)
Theorem first_field_failure (s_conf_props : json) (e : exn) :
  search_conf_props_to_openapi_props s_conf_props = Err e ↔
  (∀ fields, s_conf_props ≠ JDict fields) ∧ e = AttributeError "items" ∨
  ∃ pre key props post,
    s_conf_props = JDict (pre ++ (key, props) :: post) ∧
    Forall accepted_field pre ∧
    ((∀ o, props ≠ JDict o) ∧ getitem props "type" = Err e ∧
       (∃ why, e = TypeError why) ∨
     (∃ o, props = JDict o ∧ dict_get o "type" = None) ∧
       e = KeyError (JStr "type") ∨
     ∃ t, getitem props "type" = Ok t ∧
          (t ∉ supported_types) ∧
          es_type_lookup t = Err e ∧
          (e = KeyError t ∨ e = TypeError Unhashable)).
Proof.
  destruct s_conf_props as [| | | | | |fields];
    try (split;
         [ intros [= <-]; by left
         | intros [[_ ->] | (? & ? & ? & ? & [=] & _)]; done ]).
  rewrite search_conf_props_eq, bind_Err. split.
  - intros [He | (? & _ & [=])]. right.
    apply mapM_result_Err in He as (pre & [key props] & post & -> & Hpre & He).
    exists pre, key, props, post. split; [done|]. split.
    { eapply Forall_impl; [exact Hpre|]. intros kv. apply field_entry_accepted. }
    unfold field_entry, field_type in He. simpl in He.
    apply bind_Err in He as [[He | (t & Ht & He)]%bind_Err | (? & _ & [=])].
    + destruct props as [| | | | | |o];
        try (left; split; [done|]; split; [done|];
             simpl in He; injection He as <-; by eexists).
      right. left. simpl in He. destruct (dict_get o "type") eqn:Ho; [done|].
      injection He as <-. split; [by exists o | done].
    + right. right. exists t. split; [done|].
      assert (t ∉ supported_types) as Hu.
      { intros [ty Hty]%es_type_lookup_is_Ok. congruence. }
      do 2 (split; [done|]). by apply es_type_lookup_Err in He.
  - intros [[Hnot _] | (pre & key & props & post & [= ->] & Hpre & He)];
      [by destruct (Hnot fields)|].
    left. apply mapM_result_Err. exists pre, (key, props), post.
    split; [done|]. split.
    { eapply Forall_impl; [exact Hpre|]. intros kv. apply field_entry_accepted. }
    unfold field_entry, field_type. simpl.
    destruct He as [(_ & He & _) | [[(o & -> & Ho) ->] | (t & Ht & _ & He & _)]].
    + by rewrite He.
    + simpl. by rewrite Ho.
    + rewrite Ht. simpl. by rewrite He.
Qed.
